(** * The AWS KMS key manager plugin (pkg/kms/kms.go), embedded in Rocq.

    The plugin keeps a table from SPIRE key ids to KMS-backed key entries,
    rebuilds it from the keys found in KMS when it is configured, and serves
    key generation, signing and public-key lookups.

    Modelling conventions.
    - Go strings are byte strings: [string] of the Standard Library.
    - [p.entries] (a Go map) is a [gmap string keyEntry].
    - A Go result pair [(v, err)] is a [result]: [Ok v] or [Error err].
    - The KMS service is an oracle over an abstract service state [B]; every
      call through [p.kmsClient] is appended to a trace of calls, the way a
      recording fake of the [kmsClient] interface would.
    - [p.kmsClient] is nil until [Configure] sets it; calling through a nil
      client is a run-time panic, modelled by [None] in the monad [M].
    - Pointer fields of SDK responses that the service always fills in
      (KeyId, Description, Enabled, CreationDate, ...) are modelled by their
      pointees.
    - [p.mu] only serialises the bodies of [setEntry], [entry] and
      [publicKeys]; each of them is one atomic step of this sequential model.
    - The [context.Context] argument carries no data the plugin inspects; a
      cancelled call is one more way for the oracle to answer with an error. *)

From Stdlib Require Import ZArith String Ascii List Bool Lia.
From Stdlib.Strings Require Import Byte.
From stdpp Require Import base option list gmap strings fin_maps.

Local Open Scope string_scope.
Local Open Scope list_scope.
Local Open Scope Z_scope.

(** ** Go strings: the functions of package [strings] the plugin calls *)

Module strings.

(** [s[:k]] and [s[k:]] for [k <= len(s)]. *)
Fixpoint sliceTo (s : string) (k : nat) {struct k} : string :=
  match k, s with
  | S k', String c s' => String c (sliceTo s' k')
  | _, _ => EmptyString
  end.

Fixpoint sliceFrom (s : string) (k : nat) {struct k} : string :=
  match k, s with
  | S k', String _ s' => sliceFrom s' k'
  | _, _ => s
  end.

(** [strings.HasPrefix(s, prefix)]. *)
Fixpoint HasPrefix (s prefix : string) {struct prefix} : bool :=
  match prefix, s with
  | EmptyString, _ => true
  | String p prefix', String c s' => Ascii.eqb c p && HasPrefix s' prefix'
  | String _ _, EmptyString => false
  end.

(** [strings.Index(s, substr)]: the first position of [substr] in [s];
    [None] stands for Go's -1. *)
Fixpoint Index (s substr : string) : option nat :=
  if HasPrefix s substr then Some 0%nat
  else match s with
       | EmptyString => None
       | String _ s' => S <$> Index s' substr
       end.

(** The loop of [genSplit(s, sep, len(sep), -1)] for a non-empty [sep]:
    cut after every instance of [sep].  Go bounds the loop by
    [Count(s, sep)]; [fuel] plays that role. *)
Fixpoint genSplit (fuel : nat) (s sep : string) : list string :=
  match fuel with
  | O => [s]
  | S fuel' =>
      match Index s sep with
      | None => [s]
      | Some m =>
          sliceTo s (m + String.length sep)
            :: genSplit fuel' (sliceFrom s (m + String.length sep)) sep
      end
  end.

(** [explode]: one piece per byte (Go cuts after every UTF-8 sequence, which
    is the same on ASCII text). *)
Fixpoint explode (s : string) : list string :=
  match s with
  | EmptyString => []
  | String c s' => String c EmptyString :: explode s'
  end.

(** [strings.SplitAfter(s, sep)]. *)
Definition SplitAfter (s sep : string) : list string :=
  match sep with
  | EmptyString => explode s
  | String _ _ => genSplit (String.length s) s sep
  end.

End strings.

(** ** package time *)

Module time.

(** An instant: whole seconds since the Unix epoch and the nanoseconds
    within that second. *)
Record Time := { sec : Z; nsec : Z }.

(** [t.Unix()] drops the sub-second part. *)
Definition Unix (t : Time) : Z := sec t.

(** [t.After(u)], the full-precision order. *)
Definition After (t u : Time) : bool :=
  (sec u <? sec t) || ((sec u =? sec t) && (nsec u <? nsec t)).

End time.

(** ** Errors *)

Inductive error :=
| kmsErr_New (msg : string)      (* kmsErr.New(msg): class "kms" *)
| foreign_error (msg : string).  (* raised by the AWS SDK or by hcl *)

Definition Error_string (e : error) : string :=
  match e with
  | kmsErr_New msg => "kms: " +:+ msg
  | foreign_error msg => msg
  end.

Inductive result (A : Type) :=
| Ok (a : A)
| Error (err : error).
Arguments Ok {A} a.
Arguments Error {A} err.

(** ** package keymanager (SPIRE's plugin protocol) *)

Module keymanager.

(** The enumerators of the protocol's [KeyType].  (The generated Go type is
    an [int32]; a value outside the enumerators would take the default
    branch of [keySpecFromKeyType], as [KeyType_UNSPECIFIED_KEY_TYPE]
    does.) *)
Inductive KeyType :=
| KeyType_UNSPECIFIED_KEY_TYPE
| KeyType_EC_P256
| KeyType_EC_P384
| KeyType_RSA_1024
| KeyType_RSA_2048
| KeyType_RSA_4096.

Record PublicKey := {
  Id : string;
  Type_ : KeyType;
  PkixData : list byte
}.

Record GenerateKeyRequest := {
  GenerateKeyRequest_KeyId : string;
  GenerateKeyRequest_KeyType : KeyType
}.

Record GenerateKeyResponse := { GenerateKeyResponse_PublicKey : PublicKey }.

Record SignDataRequest := {
  SignDataRequest_KeyId : string;
  SignDataRequest_Data : list byte
}.

Record SignDataResponse := { Signature : list byte }.

Record GetPublicKeyRequest := { GetPublicKeyRequest_KeyId : string }.

(** [new(GetPublicKeyResponse)] has a nil [PublicKey]. *)
Record GetPublicKeyResponse := {
  GetPublicKeyResponse_PublicKey : option PublicKey
}.

Record GetPublicKeysResponse := { PublicKeys : list PublicKey }.

End keymanager.

(** ** package kms of the AWS SDK: constants and messages *)

Module kms.

Definition CustomerMasterKeySpecRsa2048 : string := "RSA_2048".
Definition CustomerMasterKeySpecRsa3072 : string := "RSA_3072".
Definition CustomerMasterKeySpecRsa4096 : string := "RSA_4096".
Definition CustomerMasterKeySpecEccNistP256 : string := "ECC_NIST_P256".
Definition CustomerMasterKeySpecEccNistP384 : string := "ECC_NIST_P384".
Definition CustomerMasterKeySpecEccNistP521 : string := "ECC_NIST_P521".
Definition CustomerMasterKeySpecEccSecgP256k1 : string := "ECC_SECG_P256K1".
Definition CustomerMasterKeySpecSymmetricDefault : string := "SYMMETRIC_DEFAULT".

Definition KeyUsageTypeSignVerify : string := "SIGN_VERIFY".
Definition MessageTypeDigest : string := "DIGEST".

Definition SigningAlgorithmSpecRsassaPssSha256 : string := "RSASSA_PSS_SHA_256".
Definition SigningAlgorithmSpecRsassaPssSha384 : string := "RSASSA_PSS_SHA_384".
Definition SigningAlgorithmSpecRsassaPssSha512 : string := "RSASSA_PSS_SHA_512".
Definition SigningAlgorithmSpecRsassaPkcs1V15Sha256 : string := "RSASSA_PKCS1_V1_5_SHA_256".
Definition SigningAlgorithmSpecRsassaPkcs1V15Sha384 : string := "RSASSA_PKCS1_V1_5_SHA_384".
Definition SigningAlgorithmSpecRsassaPkcs1V15Sha512 : string := "RSASSA_PKCS1_V1_5_SHA_512".
Definition SigningAlgorithmSpecEcdsaSha256 : string := "ECDSA_SHA_256".
Definition SigningAlgorithmSpecEcdsaSha384 : string := "ECDSA_SHA_384".
Definition SigningAlgorithmSpecEcdsaSha512 : string := "ECDSA_SHA_512".

Record KeyMetadata := {
  KeyId : string;
  CreationDate : time.Time;
  CustomerMasterKeySpec : string;
  Description : string;
  Enabled : bool
}.

Record CreateKeyInput := {
  CreateKeyInput_Description : string;
  CreateKeyInput_KeyUsage : string;
  CreateKeyInput_CustomerMasterKeySpec : string
}.

Record GetPublicKeyOutput := {
  GetPublicKeyOutput_KeyId : string;
  GetPublicKeyOutput_PublicKey : list byte
}.

Record SignInput := {
  SignInput_KeyId : string;
  SignInput_Message : list byte;
  SignInput_MessageType : string;
  SignInput_SigningAlgorithm : string
}.

End kms.

(** ** The plugin's own types *)

Definition keyPrefix : string := "SPIRE_SERVER_KEY:".

Record keyEntry := {
  AwsKeyID : string;
  CreationDate : time.Time;
  PublicKey : keymanager.PublicKey
}.

Record Config := {
  AccessKeyID : string;
  SecretAccessKey : string;
  Region : string
}.

(** What [newKMSClient] hands to [session.NewSession]. *)
Record awsConfig := {
  Credentials : string * string * string;  (* NewStaticCredentials(id, secret, token) *)
  awsConfig_Region : string
}.

(** A [*kms.KMS]: a client bound to the session settings it was built from. *)
Record KMS := { session : awsConfig }.

(** One record of [p.log.Error(msg, "KeyId", id, "error", err)]. *)
Record logLine := {
  logMsg : string;
  logKeyId : string;
  logError : error
}.

Record Plugin := {
  log : list logLine;
  config : option Config;
  entries : gmap string keyEntry;
  kmsClient : option KMS
}.

(** [New()]. *)
Definition New : Plugin :=
  {| log := []; config := None; entries := ∅; kmsClient := None |}.

Definition set_entries (p : Plugin) (m : gmap string keyEntry) : Plugin :=
  {| log := log p; config := config p; entries := m; kmsClient := kmsClient p |}.

Definition set_config (p : Plugin) (c : Config) : Plugin :=
  {| log := log p; config := Some c; entries := entries p; kmsClient := kmsClient p |}.

Definition set_kmsClient (p : Plugin) (k : KMS) : Plugin :=
  {| log := log p; config := config p; entries := entries p; kmsClient := Some k |}.

Definition add_log (p : Plugin) (l : logLine) : Plugin :=
  {| log := log p ++ [l]; config := config p; entries := entries p;
     kmsClient := kmsClient p |}.

(** ** The type mapping between SPIRE key types and KMS key specs *)

Definition keyTypeFromKeySpec (keySpec : string) : result keymanager.KeyType :=
  if String.eqb keySpec kms.CustomerMasterKeySpecRsa2048 then
    Ok keymanager.KeyType_RSA_2048
  else if String.eqb keySpec kms.CustomerMasterKeySpecRsa4096 then
    Ok keymanager.KeyType_RSA_4096
  else if String.eqb keySpec kms.CustomerMasterKeySpecEccNistP256 then
    Ok keymanager.KeyType_EC_P256
  else if String.eqb keySpec kms.CustomerMasterKeySpecEccNistP384 then
    Ok keymanager.KeyType_EC_P384
  else
    Error (kmsErr_New "unsupported").

Definition keySpecFromKeyType (keyType : keymanager.KeyType) : result string :=
  match keyType with
  | keymanager.KeyType_RSA_1024 => Error (kmsErr_New "unsupported")
  | keymanager.KeyType_RSA_2048 => Ok kms.CustomerMasterKeySpecRsa2048
  | keymanager.KeyType_RSA_4096 => Ok kms.CustomerMasterKeySpecRsa4096
  | keymanager.KeyType_EC_P256 => Ok kms.CustomerMasterKeySpecEccNistP256
  | keymanager.KeyType_EC_P384 => Ok kms.CustomerMasterKeySpecEccNistP384
  | _ => Error (kmsErr_New "unknown and unsupported")
  end.

(** ** The key entry store: the methods that only touch [p.entries] *)

(** [p.setEntry(spireKeyID, newEntry)]: the comma-ok lookup, the guard on
    the two creation dates in whole seconds, the assignment. *)
Definition setEntry (spireKeyID : string) (newEntry : keyEntry) (p : Plugin)
  : bool * Plugin :=
  let rejected :=
    match entries p !! spireKeyID with
    | Some oldEntry =>
        time.Unix (CreationDate oldEntry) >? time.Unix (CreationDate newEntry)
    | None => false
    end in
  if rejected then (false, p)
  else (true, set_entries p (<[spireKeyID := newEntry]> (entries p))).

(** [p.entry(spireKeyID)]: [None] is [hasKey = false]. *)
Definition entry (spireKeyID : string) (p : Plugin) : option keyEntry :=
  entries p !! spireKeyID.

(** [p.publicKeys()]: Go iterates the map in an unspecified order; the model
    takes the order of [map_to_list]. *)
Definition publicKeys (p : Plugin) : list keymanager.PublicKey :=
  (fun kv => PublicKey (snd kv)) <$> map_to_list (entries p).

(** [p.GetPublicKey(ctx, req)]. *)
Definition GetPublicKey (req : keymanager.GetPublicKeyRequest) (p : Plugin)
  : result keymanager.GetPublicKeyResponse * Plugin :=
  if String.eqb (keymanager.GetPublicKeyRequest_KeyId req) "" then
    (Error (kmsErr_New "KeyId is required"), p)
  else
    match entry (keymanager.GetPublicKeyRequest_KeyId req) p with
    | None =>
        (Ok {| keymanager.GetPublicKeyResponse_PublicKey := None |}, p)
    | Some e =>
        (Ok {| keymanager.GetPublicKeyResponse_PublicKey := Some (PublicKey e) |}, p)
    end.

(** [p.GetPublicKeys(ctx, req)]. *)
Definition GetPublicKeys (p : Plugin)
  : result keymanager.GetPublicKeysResponse * Plugin :=
  (Ok {| keymanager.PublicKeys := publicKeys p |}, p).

(** [plugin.GetPluginInfoResponse]. *)
Inductive GetPluginInfoResponse := GetPluginInfoResponse_empty.

(** [p.GetPluginInfo(ctx, req)]. *)
Definition GetPluginInfo (p : Plugin) : result GetPluginInfoResponse * Plugin :=
  (Ok GetPluginInfoResponse_empty, p).

(** ** The plugin's surroundings *)

(** [plugin.ConfigureRequest] and [plugin.ConfigureResponse]. *)
Record ConfigureRequest := { Configuration : string }.

Inductive ConfigureResponse := ConfigureResponse_empty.

(** The [kmsClient] interface (named [KMSClient] here, the plugin has a
    field of the same name), as an oracle over a service state [B]: each
    operation answers and moves the service to its next state. *)
Class KMSClient (B : Type) := {
  CreateKeyWithContext : kms.CreateKeyInput -> B -> result kms.KeyMetadata * B;
  DescribeKeyWithContext : string -> B -> result kms.KeyMetadata * B;
  GetPublicKeyWithContext : string -> B -> result kms.GetPublicKeyOutput * B;
  ListKeysWithContext : B -> result (list string) * B;
  ScheduleKeyDeletionWithContext : string -> B -> result unit * B;
  SignWithContext : kms.SignInput -> B -> result (list byte) * B
}.

(** A [*session.Session]. *)
Record Session := { sessionConfig : awsConfig }.

(** The two library calls of configuration: [hcl.Decode] into a fresh
    [Config], and [session.NewSession]. *)
Class Host := {
  hcl_Decode : string -> result Config;
  session_NewSession : awsConfig -> result Session
}.

(** The calls that reach the service, in the order they are made. *)
Inductive call :=
| CreateKey (input : kms.CreateKeyInput)
| DescribeKey (keyId : string)
| FetchPublicKey (keyId : string)
| ListKeys
| ScheduleKeyDeletion (keyId : string)
| Sign (input : kms.SignInput).

Definition deletionTarget (c : call) : option string :=
  match c with
  | ScheduleKeyDeletion keyId => Some keyId
  | _ => None
  end.

Definition describeTarget (c : call) : option string :=
  match c with
  | DescribeKey keyId => Some keyId
  | _ => None
  end.

Definition signInput (c : call) : option kms.SignInput :=
  match c with
  | Sign input => Some input
  | _ => None
  end.

Section WithService.

Context {B : Type} {client : KMSClient B} {host : Host}.

Record World := {
  plug : Plugin;
  service : B;
  calls : list call
}.

(** Computations over the world; [None] is a panic. *)
Definition M (A : Type) : Type := World -> option (A * World).

Definition ret {A} (a : A) : M A := fun w => Some (a, w).

Definition bind {A C} (m : M A) (k : A -> M C) : M C :=
  fun w => match m w with
           | None => None
           | Some (a, w') => k a w'
           end.

Definition panic {A} : M A := fun _ => None.

Notation "x <- m ;; k" := (bind m (fun x => k))
  (at level 100, m at next level, right associativity).

(** A method that only touches the plugin's own fields. *)
Definition onPlugin {A} (f : Plugin -> A * Plugin) : M A :=
  fun w => let (a, p') := f (plug w) in
           Some (a, {| plug := p'; service := service w; calls := calls w |}).

Definition readPlugin {A} (f : Plugin -> A) : M A :=
  fun w => Some (f (plug w), w).

(** One call on a client that is known to be there. *)
Definition invoke {A} (c : call) (op : B -> result A * B) : M (result A) :=
  fun w => let (r, b') := op (service w) in
           Some (r, {| plug := plug w; service := b'; calls := calls w ++ [c] |}).

(** One call through [p.kmsClient]. *)
Definition viaClient {A} (c : call) (op : B -> result A * B) : M (result A) :=
  fun w => match kmsClient (plug w) with
           | None => None
           | Some _ => invoke c op w
           end.

Definition configure (c : string) : result Config :=
  match hcl_Decode c with
  | Error err =>
      Error (kmsErr_New ("unable to decode configuration: " +:+ Error_string err))
  | Ok config => Ok config
  end.

Definition newKMSClient (c : Config) : result KMS :=
  let creds := (AccessKeyID c, SecretAccessKey c, "") in
  let awsConf := {| Credentials := creds; awsConfig_Region := Region c |} in
  match session_NewSession awsConf with
  | Error err => Error err
  | Ok s => Ok {| session := sessionConfig s |}
  end.

Definition processKMSKey (awsKeyID : string) : M (option error) :=
  describeResp <- viaClient (DescribeKey awsKeyID) (DescribeKeyWithContext awsKeyID) ;;
  match describeResp with
  | Error err => ret (Some err)
  | Ok md =>
      match keyTypeFromKeySpec (kms.CustomerMasterKeySpec md) with
      | Error err => ret (Some err)
      | Ok keyType =>
          if kms.Enabled md && strings.HasPrefix (kms.Description md) keyPrefix then
            let descSplit := strings.SplitAfter (kms.Description md) keyPrefix in
            match descSplit !! 1%nat with
            | None => panic
            | Some spireKeyID =>
                getPublicKeyResp <-
                  viaClient (FetchPublicKey awsKeyID) (GetPublicKeyWithContext awsKeyID) ;;
                match getPublicKeyResp with
                | Error err => ret (Some err)
                | Ok pub =>
                    let e := {| AwsKeyID := awsKeyID;
                                CreationDate := kms.CreationDate md;
                                PublicKey :=
                                  {| keymanager.Id := spireKeyID;
                                     keymanager.Type_ := keyType;
                                     keymanager.PkixData :=
                                       kms.GetPublicKeyOutput_PublicKey pub |} |} in
                    _ <- onPlugin (setEntry spireKeyID e) ;;
                    ret None
                end
            end
          else ret None
      end
  end.

(** The [for _, key := range listKeysResp.Keys] loop of [Configure]. *)
Fixpoint processKeys (keys : list string) : M unit :=
  match keys with
  | [] => ret tt
  | key :: keys' =>
      err <- processKMSKey key ;;
      _ <- match err with
           | Some e =>
               onPlugin (fun p =>
                 (tt, add_log p {| logMsg := "Failed to process kms key.";
                                   logKeyId := key; logError := e |}))
           | None => ret tt
           end ;;
      processKeys keys'
  end.

Definition Configure (req : ConfigureRequest) : M (result ConfigureResponse) :=
  match configure (Configuration req) with
  | Error err => ret (Error err)
  | Ok config =>
      _ <- onPlugin (fun p => (tt, set_config p config)) ;;
      match newKMSClient config with
      | Error err => ret (Error err)
      | Ok kmsClient =>
          _ <- onPlugin (fun p => (tt, set_kmsClient p kmsClient)) ;;
          listKeysResp <- invoke ListKeys ListKeysWithContext ;;
          match listKeysResp with
          | Error err => ret (Error err)
          | Ok keys =>
              _ <- processKeys keys ;;
              ret (Ok ConfigureResponse_empty)
          end
      end
  end.

Definition GenerateKey (req : keymanager.GenerateKeyRequest)
  : M (result keymanager.GenerateKeyResponse) :=
  let spireKeyID := keymanager.GenerateKeyRequest_KeyId req in
  let description := keyPrefix +:+ spireKeyID in
  match keySpecFromKeyType (keymanager.GenerateKeyRequest_KeyType req) with
  | Error err => ret (Error err)
  | Ok keySpec =>
      let createKeyInput :=
        {| kms.CreateKeyInput_Description := description;
           kms.CreateKeyInput_KeyUsage := kms.KeyUsageTypeSignVerify;
           kms.CreateKeyInput_CustomerMasterKeySpec := keySpec |} in
      key <- viaClient (CreateKey createKeyInput) (CreateKeyWithContext createKeyInput) ;;
      match key with
      | Error err => ret (Error err)
      | Ok keyMetadata =>
          pub <- viaClient (FetchPublicKey (kms.KeyId keyMetadata))
                           (GetPublicKeyWithContext (kms.KeyId keyMetadata)) ;;
          match pub with
          | Error err => ret (Error err)
          | Ok pub =>
              let newEntry :=
                {| AwsKeyID := kms.GetPublicKeyOutput_KeyId pub;
                   CreationDate := kms.CreationDate keyMetadata;
                   PublicKey :=
                     {| keymanager.Id := spireKeyID;
                        keymanager.Type_ := keymanager.GenerateKeyRequest_KeyType req;
                        keymanager.PkixData := kms.GetPublicKeyOutput_PublicKey pub |} |} in
              old <- readPlugin (entry spireKeyID) ;;
              ok <- onPlugin (setEntry spireKeyID newEntry) ;;
              let response :=
                Ok {| keymanager.GenerateKeyResponse_PublicKey := PublicKey newEntry |} in
              match old with
              | Some oldEntry =>
                  if ok then
                    r <- viaClient (ScheduleKeyDeletion (AwsKeyID oldEntry))
                                   (ScheduleKeyDeletionWithContext (AwsKeyID oldEntry)) ;;
                    match r with
                    | Error err => ret (Error err)
                    | Ok _ => ret response
                    end
                  else ret response
              | None => ret response
              end
          end
      end
  end.

Definition SignData (req : keymanager.SignDataRequest)
  : M (result keymanager.SignDataResponse) :=
  keyEntry <- readPlugin (entry (keymanager.SignDataRequest_KeyId req)) ;;
  match keyEntry with
  | None =>
      ret (Error (kmsErr_New ("unable to find KeyId: "
                              +:+ keymanager.SignDataRequest_KeyId req)))
  | Some keyEntry =>
      let input :=
        {| kms.SignInput_KeyId := AwsKeyID keyEntry;
           kms.SignInput_Message := keymanager.SignDataRequest_Data req;
           kms.SignInput_MessageType := kms.MessageTypeDigest;
           kms.SignInput_SigningAlgorithm := kms.SigningAlgorithmSpecEcdsaSha256 |} in
      signResp <- viaClient (Sign input) (SignWithContext input) ;;
      match signResp with
      | Error err => ret (Error err)
      | Ok signature => ret (Ok {| keymanager.Signature := signature |})
      end
  end.

End WithService.

Notation "x <- m ;; k" := (bind m (fun x => k))
  (at level 100, m at next level, right associativity).

(** ** A recording in-memory fake of the service

    It holds a table of keys, answers [ListKeys] from a script, and creates
    keys from a list of handles, dates and key material still to hand out. *)

Module fake.

Record key := {
  metadata : kms.KeyMetadata;
  material : result (list byte)   (* what fetching the public key answers *)
}.

Record KMSState := {
  listing : result (list string);
  table : list key;
  unissued : list (string * time.Time * list byte)
}.

Definition find (keyId : string) (b : KMSState) : option key :=
  List.find (fun k => String.eqb (kms.KeyId (metadata k)) keyId) (table b).

Definition notFound {A} : result A := Error (foreign_error "NotFoundException").

Definition createKey (input : kms.CreateKeyInput) (b : KMSState)
  : result kms.KeyMetadata * KMSState :=
  match unissued b with
  | [] => (Error (foreign_error "LimitExceededException"), b)
  | (keyId, date, bytes) :: rest =>
      let md := {| kms.KeyId := keyId;
                   kms.CreationDate := date;
                   kms.CustomerMasterKeySpec := kms.CreateKeyInput_CustomerMasterKeySpec input;
                   kms.Description := kms.CreateKeyInput_Description input;
                   kms.Enabled := true |} in
      (Ok md, {| listing := listing b;
                 table := table b ++ [{| metadata := md; material := Ok bytes |}];
                 unissued := rest |})
  end.

Definition describeKey (keyId : string) (b : KMSState)
  : result kms.KeyMetadata * KMSState :=
  (match find keyId b with
   | Some k => Ok (metadata k)
   | None => notFound
   end, b).

Definition getPublicKey (keyId : string) (b : KMSState)
  : result kms.GetPublicKeyOutput * KMSState :=
  (match find keyId b with
   | Some k =>
       match material k with
       | Ok bytes =>
           Ok {| kms.GetPublicKeyOutput_KeyId := keyId;
                 kms.GetPublicKeyOutput_PublicKey := bytes |}
       | Error err => Error err
       end
   | None => notFound
   end, b).

Definition listKeys (b : KMSState) : result (list string) * KMSState :=
  (listing b, b).

Definition disable (k : key) : key :=
  {| metadata :=
       {| kms.KeyId := kms.KeyId (metadata k);
          kms.CreationDate := kms.CreationDate (metadata k);
          kms.CustomerMasterKeySpec := kms.CustomerMasterKeySpec (metadata k);
          kms.Description := kms.Description (metadata k);
          kms.Enabled := false |};
     material := material k |}.

Definition scheduleKeyDeletion (keyId : string) (b : KMSState)
  : result unit * KMSState :=
  match find keyId b with
  | Some _ =>
      (Ok tt,
       {| listing := listing b;
          table := List.map (fun k => if String.eqb (kms.KeyId (metadata k)) keyId
                                      then disable k else k) (table b);
          unissued := unissued b |})
  | None => (notFound, b)
  end.

(** The fake signs by echoing the digest. *)
Definition sign (input : kms.SignInput) (b : KMSState)
  : result (list byte) * KMSState :=
  (match find (kms.SignInput_KeyId input) b with
   | Some _ => Ok (kms.SignInput_Message input)
   | None => notFound
   end, b).

#[global] Instance client : KMSClient KMSState := {
  CreateKeyWithContext := createKey;
  DescribeKeyWithContext := describeKey;
  GetPublicKeyWithContext := getPublicKey;
  ListKeysWithContext := listKeys;
  ScheduleKeyDeletionWithContext := scheduleKeyDeletion;
  SignWithContext := sign
}.

(** Two configuration texts and what [hcl.Decode] makes of them; anything
    else is taken as a syntax error. *)
Definition quoted (s : string) : string :=
  String (Ascii.ascii_of_nat 34) s +:+ String (Ascii.ascii_of_nat 34) EmptyString.

Definition newline : string := String (Ascii.ascii_of_nat 10) EmptyString.

Definition partialConfigText : string :=
  "access_key_id = " +:+ quoted "AKIAEXAMPLE".

Definition fullConfigText : string :=
  partialConfigText +:+ newline
  +:+ "secret_access_key = " +:+ quoted "s3cr3t" +:+ newline
  +:+ "region = " +:+ quoted "us-east-1".

Definition decode (c : string) : result Config :=
  if String.eqb c fullConfigText then
    Ok {| AccessKeyID := "AKIAEXAMPLE"; SecretAccessKey := "s3cr3t";
          Region := "us-east-1" |}
  else if String.eqb c partialConfigText then
    Ok {| AccessKeyID := "AKIAEXAMPLE"; SecretAccessKey := ""; Region := "" |}
  else Error (foreign_error "hcl: syntax error").

#[global] Instance host : Host := {
  hcl_Decode := decode;
  session_NewSession := fun conf => Ok {| sessionConfig := conf |}
}.

(** A host on which no session can be opened. *)
Definition offlineHost : Host :=
  {| hcl_Decode := decode;
     session_NewSession :=
       fun _ => Error (foreign_error "NoCredentialProviders") |}.

Definition world (p : Plugin) (b : KMSState) : World :=
  {| plug := p; service := b; calls := [] |}.

End fake.

(** * What the code is measured against

    Functions that read off what an operation did or was due to do; the
    properties below are stated with them. *)

(** What [processKMSKey] reads as the SPIRE key id out of a description
    [keyPrefix ++ rest]: the text after the tag, cut after the next instance
    of the tag when there is one. *)
Definition idAfterTag (rest : string) : string :=
  match strings.Index rest keyPrefix with
  | None => rest
  | Some m => strings.sliceTo rest (m + String.length keyPrefix)
  end.

(** The key types the plugin can back with a KMS key. *)
Definition supportedKeyTypes : list keymanager.KeyType :=
  [keymanager.KeyType_RSA_2048; keymanager.KeyType_RSA_4096;
   keymanager.KeyType_EC_P256; keymanager.KeyType_EC_P384].

(** ** What reconciliation makes of one key *)

(** The key is enabled and its description starts with the ownership tag. *)
Definition owned (md : kms.KeyMetadata) : bool :=
  kms.Enabled md && strings.HasPrefix (kms.Description md) keyPrefix.

Definition supportedSpec (md : kms.KeyMetadata) : bool :=
  match keyTypeFromKeySpec (kms.CustomerMasterKeySpec md) with
  | Ok _ => true
  | Error _ => false
  end.

Definition fetched (r : result kms.GetPublicKeyOutput) : bool :=
  match r with
  | Ok _ => true
  | Error _ => false
  end.

(** The Put that [processKMSKey awsKeyID] makes, from the answers of the
    service to its describe and fetch calls; [None] when it makes none. *)
Definition reconciled (awsKeyID : string)
  (describeResp : result kms.KeyMetadata)
  (getPublicKeyResp : result kms.GetPublicKeyOutput)
  : option (string * keyEntry) :=
  match describeResp, getPublicKeyResp with
  | Ok md, Ok pub =>
      match keyTypeFromKeySpec (kms.CustomerMasterKeySpec md) with
      | Ok keyType =>
          if owned md then
            let spireKeyID :=
              idAfterTag (strings.sliceFrom (kms.Description md)
                                            (String.length keyPrefix)) in
            Some (spireKeyID,
                  {| AwsKeyID := awsKeyID;
                     CreationDate := kms.CreationDate md;
                     PublicKey :=
                       {| keymanager.Id := spireKeyID;
                          keymanager.Type_ := keyType;
                          keymanager.PkixData :=
                            kms.GetPublicKeyOutput_PublicKey pub |} |})
          else None
      | Error _ => None
      end
  | _, _ => None
  end.

(** The store after one more Put. *)
Definition storeAfterPut (m : gmap string keyEntry) (put : string * keyEntry)
  : gmap string keyEntry :=
  entries (snd (setEntry (fst put) (snd put) (set_entries New m))).

(** A sequence of Puts under one id. *)
Definition putAll (id : string) (es : list keyEntry) (p : Plugin) : Plugin :=
  foldl (fun p e => snd (setEntry id e p)) p es.

(** Whether [processKMSKey] goes on to fetch the public key after this
    answer to its describe call. *)
Definition fetches (describeResp : result kms.KeyMetadata) : bool :=
  match describeResp with
  | Ok md => supportedSpec md && owned md
  | Error _ => false
  end.

(** Reconciliation against a service whose answers about a key do not
    change while it runs: [descr] and [pubk] are the answers to describing a
    key and to fetching its public key. *)
Section Snapshot.

Variable descr : string -> result kms.KeyMetadata.
Variable pubk : string -> result kms.GetPublicKeyOutput.

(** The key can be described, is enabled and tagged, has a supported spec,
    and its public key can be fetched. *)
Definition reconcilable (k : string) : bool :=
  match descr k with
  | Ok md => owned md && supportedSpec md && fetched (pubk k)
  | Error _ => false
  end.

Definition putOf (k : string) : option (string * keyEntry) :=
  reconciled k (descr k) (pubk k).

End Snapshot.

Section Expectations.

Context {B : Type} {client : KMSClient B}.

(** The entry [GenerateKey] builds and Puts, when the key type is supported
    and the service both creates the key and hands out its public key. *)
Definition newEntryOf (req : keymanager.GenerateKeyRequest) (b : B)
  : option keyEntry :=
  match keySpecFromKeyType (keymanager.GenerateKeyRequest_KeyType req) with
  | Error _ => None
  | Ok keySpec =>
      let input :=
        {| kms.CreateKeyInput_Description :=
             keyPrefix +:+ keymanager.GenerateKeyRequest_KeyId req;
           kms.CreateKeyInput_KeyUsage := kms.KeyUsageTypeSignVerify;
           kms.CreateKeyInput_CustomerMasterKeySpec := keySpec |} in
      match CreateKeyWithContext input b with
      | (Error _, _) => None
      | (Ok md, b1) =>
          match GetPublicKeyWithContext (kms.KeyId md) b1 with
          | (Error _, _) => None
          | (Ok pub, _) =>
              Some {| AwsKeyID := kms.GetPublicKeyOutput_KeyId pub;
                      CreationDate := kms.CreationDate md;
                      PublicKey :=
                        {| keymanager.Id := keymanager.GenerateKeyRequest_KeyId req;
                           keymanager.Type_ := keymanager.GenerateKeyRequest_KeyType req;
                           keymanager.PkixData := kms.GetPublicKeyOutput_PublicKey pub |} |}
          end
      end
  end.

(** The deletions [GenerateKey] must ask for: the handle of the entry that
    was under the id, when there was one and the Put was accepted. *)
Definition expectedDeletions (req : keymanager.GenerateKeyRequest) w
  : list string :=
  match newEntryOf req (service w),
        entries (plug w) !! keymanager.GenerateKeyRequest_KeyId req with
  | Some newEntry, Some oldEntry =>
      if fst (setEntry (keymanager.GenerateKeyRequest_KeyId req) newEntry (plug w))
      then [AwsKeyID oldEntry] else []
  | _, _ => []
  end.

End Expectations.

(** * Sample data and runs *)

(** Entries and plugin states. *)
Module sample.

Definition t1 : time.Time := {| time.sec := 1600000000; time.nsec := 0 |}.
Definition t2 : time.Time := {| time.sec := 1600000060; time.nsec := 0 |}.

Definition pkix1 : list byte := [x30; x59; x01].
Definition pkix2 : list byte := [x30; x59; x02].

Definition entry1 : keyEntry :=
  {| AwsKeyID := "key-1"; CreationDate := t1;
     PublicKey := {| keymanager.Id := "svid-1";
                     keymanager.Type_ := keymanager.KeyType_EC_P256;
                     keymanager.PkixData := pkix1 |} |}.

(** A second key for the same id, created within the same second. *)
Definition entry1' : keyEntry :=
  {| AwsKeyID := "key-2"; CreationDate := t1;
     PublicKey := {| keymanager.Id := "svid-1";
                     keymanager.Type_ := keymanager.KeyType_EC_P256;
                     keymanager.PkixData := pkix2 |} |}.

Definition entry2 : keyEntry :=
  {| AwsKeyID := "key-2"; CreationDate := t2;
     PublicKey := {| keymanager.Id := "svid-1";
                     keymanager.Type_ := keymanager.KeyType_EC_P256;
                     keymanager.PkixData := pkix2 |} |}.

Definition rsaEntry : keyEntry :=
  {| AwsKeyID := "key-rsa"; CreationDate := t1;
     PublicKey := {| keymanager.Id := "svid-rsa";
                     keymanager.Type_ := keymanager.KeyType_RSA_2048;
                     keymanager.PkixData := pkix1 |} |}.

(** A plugin that holds [e] under [id] and has its client set. *)
Definition holding (id : string) (e : keyEntry) : Plugin :=
  {| log := []; config := None; entries := {[ id := e ]};
     kmsClient := Some {| session := {| Credentials := ("", "", "");
                                        awsConfig_Region := "" |} |} |}.

End sample.

(** Services and requests for running the plugin against the fake. *)
Module scenario.

Import fake.

Definition keyOf (id spec description : string) (enabled : bool)
  (pub : result (list byte)) : key :=
  {| metadata := {| kms.KeyId := id; kms.CreationDate := sample.t1;
                    kms.CustomerMasterKeySpec := spec;
                    kms.Description := description;
                    kms.Enabled := enabled |};
     material := pub |}.

(** A service with one good key of the plugin and five keys reconciliation
    must pass over: one that is listed but cannot be described, one with an
    unsupported spec, one whose public key cannot be fetched, a disabled one
    and one without the tag. *)
Definition mixed : KMSState :=
  {| listing := Ok ["ghost"; "key-sym"; "key-broken"; "key-off"; "key-other"; "key-1"];
     table :=
       [ keyOf "key-sym" "SYMMETRIC_DEFAULT" "SPIRE_SERVER_KEY:svid-sym" true
               (Ok sample.pkix1);
         keyOf "key-broken" "RSA_2048" "SPIRE_SERVER_KEY:svid-broken" true
               (Error (foreign_error "KMSInternalException"));
         keyOf "key-off" "ECC_NIST_P256" "SPIRE_SERVER_KEY:svid-off" false
               (Ok sample.pkix1);
         keyOf "key-other" "ECC_NIST_P256" "billing signing key" true
               (Ok sample.pkix1);
         keyOf "key-1" "ECC_NIST_P256" "SPIRE_SERVER_KEY:svid-1" true
               (Ok sample.pkix1) ];
     unissued := [("key-2", sample.t2, sample.pkix2)] |}.

Definition configured : Plugin :=
  {| log := []; config := None; entries := ∅;
     kmsClient := Some {| session := {| Credentials := ("", "", "");
                                        awsConfig_Region := "" |} |} |}.

Definition client0 : KMS :=
  {| session := {| Credentials := ("", "", ""); awsConfig_Region := "" |} |}.

Definition fullConfig : Config :=
  {| AccessKeyID := "AKIAEXAMPLE"; SecretAccessKey := "s3cr3t";
     Region := "us-east-1" |}.

Definition fullClient : KMS :=
  {| session := {| Credentials := ("AKIAEXAMPLE", "s3cr3t", "");
                   awsConfig_Region := "us-east-1" |} |}.

Definition rotate : keymanager.GenerateKeyRequest :=
  {| keymanager.GenerateKeyRequest_KeyId := "svid-1";
     keymanager.GenerateKeyRequest_KeyType := keymanager.KeyType_EC_P256 |}.

(** The plugin holds key-1 under svid-1; the service will issue key-2. *)
Definition beforeRotation : World :=
  world (sample.holding "svid-1" sample.entry1) mixed.

(** The store of a world a run ended in. *)
Definition storeAfter {A} (run : option (A * World (B := KMSState)))
  : option (gmap string keyEntry) :=
  (fun rw => entries (plug (snd rw))) <$> run.

End scenario.

(** Inputs on which the code departs from what it is meant to do. *)
Module departures.

(** The spec's rule for choosing the signing algorithm (its section 4.2),
    in KMS's names: an RSA scheme for an RSA key, the ECDSA variant of its
    curve for an EC key.  The code has no such function; this one only
    states what [SignData] is compared with. *)
Definition specSigningAlgorithms (t : keymanager.KeyType) : list string :=
  match t with
  | keymanager.KeyType_RSA_1024
  | keymanager.KeyType_RSA_2048
  | keymanager.KeyType_RSA_4096 =>
      [kms.SigningAlgorithmSpecRsassaPssSha256;
       kms.SigningAlgorithmSpecRsassaPssSha384;
       kms.SigningAlgorithmSpecRsassaPssSha512;
       kms.SigningAlgorithmSpecRsassaPkcs1V15Sha256;
       kms.SigningAlgorithmSpecRsassaPkcs1V15Sha384;
       kms.SigningAlgorithmSpecRsassaPkcs1V15Sha512]
  | keymanager.KeyType_EC_P256 => [kms.SigningAlgorithmSpecEcdsaSha256]
  | keymanager.KeyType_EC_P384 => [kms.SigningAlgorithmSpecEcdsaSha384]
  | keymanager.KeyType_UNSPECIFIED_KEY_TYPE => []
  end.

Definition inList (s : string) (l : list string) : bool :=
  existsb (String.eqb s) l.

Definition digest : list byte := [xde; xad; xbe; xef].

Definition p384Entry : keyEntry :=
  {| AwsKeyID := "key-384"; CreationDate := sample.t1;
     PublicKey := {| keymanager.Id := "svid-384";
                     keymanager.Type_ := keymanager.KeyType_EC_P384;
                     keymanager.PkixData := sample.pkix1 |} |}.

Definition signingService : fake.KMSState :=
  {| fake.listing := Ok ["key-rsa"; "key-384"];
     fake.table :=
       [ scenario.keyOf "key-rsa" "RSA_2048" "SPIRE_SERVER_KEY:svid-rsa" true
                        (Ok sample.pkix1);
         scenario.keyOf "key-384" "ECC_NIST_P384" "SPIRE_SERVER_KEY:svid-384" true
                        (Ok sample.pkix1) ];
     fake.unissued := [] |}.

(** The algorithms of the [Sign] calls a run made. *)
Definition algorithmsAfter {A} (run : option (A * World (B := fake.KMSState)))
  : option (list string) :=
  (fun rw => kms.SignInput_SigningAlgorithm <$> omap signInput (calls (snd rw)))
    <$> run.

(** A SPIRE key id that holds the tag. *)
Definition nestedId : string := "aSPIRE_SERVER_KEY:b".

Definition nestedRequest : keymanager.GenerateKeyRequest :=
  {| keymanager.GenerateKeyRequest_KeyId := nestedId;
     keymanager.GenerateKeyRequest_KeyType := keymanager.KeyType_EC_P256 |}.

(** A service with no key yet, that will issue key-n and list it. *)
Definition emptyService : fake.KMSState :=
  {| fake.listing := Ok ["key-n"]; fake.table := [];
     fake.unissued := [("key-n", sample.t1, sample.pkix1)] |}.

(** Generate a key in a configured plugin, then start a new plugin against
    the service as the first one left it. *)
Definition restartAfterGenerate : option (gmap string keyEntry) :=
  match GenerateKey nestedRequest (fake.world scenario.configured emptyService) with
  | Some (Ok _, w1) =>
      scenario.storeAfter
        (Configure {| Configuration := fake.fullConfigText |}
                   (fake.world New (service w1)))
  | _ => None
  end.

End departures.

(** ** Readings of the store and of the trace *)

(** What a Put of [e] makes of the entry under its id. *)
Definition putStep (o : option keyEntry) (e : keyEntry) : option keyEntry :=
  match o with
  | Some old =>
      if time.Unix (CreationDate old) >? time.Unix (CreationDate e)
      then Some old else Some e
  | None => Some e
  end.

(** The entry a sequence of Puts under one id ends with. *)
Definition settle (o : option keyEntry) (es : list keyEntry) : option keyEntry :=
  foldl putStep o es.

(** The entries a list of Puts holds for one id, in order. *)
Definition putsFor (id : string) (puts : list (string * keyEntry))
  : list keyEntry :=
  snd <$> List.filter (fun put => String.eqb (fst put) id) puts.

(** Every entry sits under the id its public key carries. *)
Definition consistentIds (m : gmap string keyEntry) : Prop :=
  forall id e, m !! id = Some e -> keymanager.Id (PublicKey e) = id.

(** No id is lost and no id goes back in time (in whole seconds). *)
Definition storeGrows (m m' : gmap string keyEntry) : Prop :=
  forall id e, m !! id = Some e ->
    exists e', m' !! id = Some e'
               /\ time.Unix (CreationDate e) <= time.Unix (CreationDate e').

(** A call that only reads the service. *)
Definition readsOnly (c : call) : Prop :=
  match c with
  | ListKeys | DescribeKey _ | FetchPublicKey _ => True
  | CreateKey _ | ScheduleKeyDeletion _ | Sign _ => False
  end.

Definition createInput (c : call) : option kms.CreateKeyInput :=
  match c with
  | CreateKey input => Some input
  | _ => None
  end.

(** The error [processKMSKey awsKeyID] returns, from the answers of the
    service to its describe and fetch calls; [None] when it returns nil. *)
Definition keyError (describeResp : result kms.KeyMetadata)
  (getPublicKeyResp : result kms.GetPublicKeyOutput) : option error :=
  match describeResp with
  | Error err => Some err
  | Ok md =>
      match keyTypeFromKeySpec (kms.CustomerMasterKeySpec md) with
      | Error err => Some err
      | Ok _ =>
          if owned md then
            match getPublicKeyResp with
            | Error err => Some err
            | Ok _ => None
            end
          else None
      end
  end.

(** The line [Configure] logs for a key whose processing returned [err]. *)
Definition failureLine (key : string) (err : error) : logLine :=
  {| logMsg := "Failed to process kms key."; logKeyId := key; logError := err |}.

(** A conjunction of five. *)
Ltac split5 := split; [|split; [|split; [|split]]].

(** * Properties *)

(** ** Go strings *)

Section StringFacts.

Import strings.

Lemma append_cons (c : ascii) (p r : string) :
  String c p +:+ r = String c (p +:+ r).
Proof. reflexivity. Qed.

Lemma append_empty (r : string) : "" +:+ r = r.
Proof. reflexivity. Qed.

Lemma HasPrefix_app (p r : string) : HasPrefix (p +:+ r) p = true.
Proof.
  induction p as [|c p IH]; [reflexivity|].
  rewrite append_cons. simpl. rewrite Ascii.eqb_refl. exact IH.
Qed.

Lemma HasPrefix_inv (p s : string) :
  HasPrefix s p = true -> s = p +:+ sliceFrom s (String.length p).
Proof.
  revert s. induction p as [|c p IH]; intros s H.
  - destruct s; reflexivity.
  - destruct s as [|d s]; simpl in H; [discriminate|].
    apply andb_prop in H as [Hc Hs]. apply Ascii.eqb_eq in Hc. subst d.
    rewrite append_cons. simpl. f_equal. apply IH, Hs.
Qed.

Lemma HasPrefix_length (p s : string) :
  HasPrefix s p = true -> (String.length p <= String.length s)%nat.
Proof.
  revert s. induction p as [|c p IH]; intros s H; simpl; [lia|].
  destruct s as [|d s]; simpl in *; [discriminate|].
  apply andb_prop in H as [_ Hs]. apply IH in Hs. lia.
Qed.

Lemma Index_unfold (s p : string) :
  Index s p =
    if HasPrefix s p then Some 0%nat
    else match s with
         | EmptyString => None
         | String _ s' => S <$> Index s' p
         end.
Proof. destruct s; reflexivity. Qed.

Lemma Index_prefix (s p : string) : HasPrefix s p = true -> Index s p = Some 0%nat.
Proof. intros H. rewrite Index_unfold, H. reflexivity. Qed.

Lemma Index_bound (p s : string) (m : nat) :
  Index s p = Some m -> (m + String.length p <= String.length s)%nat.
Proof.
  revert m. induction s as [|c s IH]; intros m; rewrite Index_unfold.
  - destruct (HasPrefix "" p) eqn:E; [|discriminate].
    intros [= <-]. apply HasPrefix_length in E. simpl in *. lia.
  - destruct (HasPrefix (String c s) p) eqn:E.
    + intros [= <-]. apply HasPrefix_length in E. simpl in *. lia.
    + destruct (Index s p) as [k|]; simpl; [|discriminate].
      intros [= <-]. specialize (IH k eq_refl). lia.
Qed.

Lemma sliceTo_app (p r : string) : sliceTo (p +:+ r) (String.length p) = p.
Proof.
  induction p as [|c p IH]; [destruct r; reflexivity|].
  rewrite append_cons. simpl. now rewrite IH.
Qed.

Lemma sliceFrom_app (p r : string) : sliceFrom (p +:+ r) (String.length p) = r.
Proof.
  induction p as [|c p IH]; [destruct r; reflexivity|].
  rewrite append_cons. simpl. exact IH.
Qed.

Lemma length_sliceFrom (s : string) (k : nat) :
  String.length (sliceFrom s k) = (String.length s - k)%nat.
Proof.
  revert s. induction k as [|k IH]; intros s.
  - destruct s; simpl; lia.
  - destruct s as [|c s]; simpl; [reflexivity | apply IH].
Qed.

(** The loop of [genSplit] stops because no instance of [sep] is left, never
    because the bound was too small: any bound from [len(s)] up gives the
    same pieces. *)
Lemma genSplit_fuel (sep : string) (f1 f2 : nat) (s : string) :
  sep <> "" ->
  (String.length s <= f1)%nat -> (String.length s <= f2)%nat ->
  genSplit f1 s sep = genSplit f2 s sep.
Proof.
  intros Hsep. revert f2 s.
  assert (Hlen : (1 <= String.length sep)%nat)
    by (destruct sep; [congruence | simpl; lia]).
  assert (Hnone : forall f, genSplit f "" sep = [""]).
  { intros [|f]; simpl; [reflexivity|].
    destruct sep; [congruence | reflexivity]. }
  induction f1 as [|f1 IH]; intros f2 s H1 H2.
  - destruct s; simpl in H1; [|lia]. now rewrite Hnone.
  - destruct f2 as [|f2].
    + destruct s; simpl in H2; [|lia]. now rewrite Hnone.
    + simpl. destruct (Index s sep) as [m|] eqn:E; [|reflexivity].
      f_equal. apply Index_bound in E.
      apply IH; rewrite length_sliceFrom; lia.
Qed.

Lemma genSplit_prefix (f : nat) (p r : string) :
  genSplit (S f) (p +:+ r) p = p :: genSplit f r p.
Proof.
  simpl. rewrite (Index_prefix _ _ (HasPrefix_app p r)). simpl.
  now rewrite sliceTo_app, sliceFrom_app.
Qed.

End StringFacts.

Lemma descSplit_tagged (rest : string) :
  strings.SplitAfter (keyPrefix +:+ rest) keyPrefix !! 1%nat = Some (idAfterTag rest).
Proof.
  unfold strings.SplitAfter, idAfterTag.
  change (String.length (keyPrefix +:+ rest)) with (S (16 + String.length rest)).
  change keyPrefix with (String "S" "PIRE_SERVER_KEY:") at 1.
  cbv iota. rewrite genSplit_prefix.
  change (16 + String.length rest)%nat with (S (15 + String.length rest)).
  simpl strings.genSplit.
  destruct (strings.Index rest keyPrefix); reflexivity.
Qed.

(** [descSplit[1]] is in range whenever the prefix test passed. *)
Lemma descSplit_in_range (description : string) :
  strings.HasPrefix description keyPrefix = true ->
  strings.SplitAfter description keyPrefix !! 1%nat
  = Some (idAfterTag (strings.sliceFrom description (String.length keyPrefix))).
Proof.
  intros H. apply HasPrefix_inv in H. rewrite H at 1. apply descSplit_tagged.
Qed.

(** When the id holds no instance of the tag, it is read back whole. *)
Lemma idAfterTag_plain (rest : string) :
  strings.Index rest keyPrefix = None -> idAfterTag rest = rest.
Proof. unfold idAfterTag. now intros ->. Qed.

(** ** The key entry store *)


(** C1, as the claim has it, fails on a tie: a Put whose creation time
    equals the current entry's is accepted and replaces the entry. *)
Lemma setEntry_tie_is_accepted :
  let p := sample.holding "svid-1" sample.entry1 in
  entries p !! "svid-1" = Some sample.entry1
  /\ CreationDate sample.entry1' = CreationDate sample.entry1
  /\ fst (setEntry "svid-1" sample.entry1' p) = true
  /\ entries (snd (setEntry "svid-1" sample.entry1' p)) !! "svid-1"
     = Some sample.entry1'
  /\ sample.entry1' <> sample.entry1.
Proof.
  cbv zeta. repeat split; try reflexivity. discriminate.
Qed.

(** C1, amended: [setEntry] rejects a new entry only when the entry it would
    replace has a strictly later creation time, in whole seconds; then the
    plugin is left as it was and the result is [false].  With no entry under
    the id, or one whose creation time is not later (ties included, and any
    entry the new one is strictly [After]), the new entry is stored under
    the id and the result is [true]. *)
Theorem setEntry_last_writer_wins (p : Plugin) (id : string) (e : keyEntry) :
  (forall old, entries p !! id = Some old ->
     time.Unix (CreationDate e) < time.Unix (CreationDate old) ->
     setEntry id e p = (false, p))
  /\ (entries p !! id = None
      \/ (exists old, entries p !! id = Some old
          /\ time.Unix (CreationDate old) <= time.Unix (CreationDate e)) ->
      setEntry id e p = (true, set_entries p (<[id := e]> (entries p))))
  /\ (forall old, entries p !! id = Some old ->
      time.After (CreationDate e) (CreationDate old) = true ->
      fst (setEntry id e p) = true).
Proof.
  unfold setEntry, time.After, time.Unix. repeat split.
  - intros old -> Hlt.
    destruct (Z.gtb_spec (time.sec (CreationDate old)) (time.sec (CreationDate e)));
      [reflexivity | lia].
  - intros [-> | (old & -> & Hle)]; [reflexivity|].
    destruct (Z.gtb_spec (time.sec (CreationDate old)) (time.sec (CreationDate e)));
      [lia | reflexivity].
  - intros old -> Hafter.
    destruct (Z.gtb_spec (time.sec (CreationDate old)) (time.sec (CreationDate e)))
      as [Hgt | _]; [|reflexivity].
    apply orb_prop in Hafter as [H | H].
    + apply Z.ltb_lt in H. lia.
    + apply andb_prop in H as [Heq _]. apply Z.eqb_eq in Heq. lia.
Qed.

Lemma setEntry_last_writer_wins_witness :
  setEntry "svid-1" sample.entry2 (sample.holding "svid-1" sample.entry1)
  = (true, set_entries (sample.holding "svid-1" sample.entry1)
             (<["svid-1" := sample.entry2]>
                (entries (sample.holding "svid-1" sample.entry1))))
  /\ setEntry "svid-1" sample.entry1 (sample.holding "svid-1" sample.entry2)
     = (false, sample.holding "svid-1" sample.entry2).
Proof.
  split.
  - apply (proj1 (proj2 (setEntry_last_writer_wins
                           (sample.holding "svid-1" sample.entry1)
                           "svid-1" sample.entry2))).
    right. exists sample.entry1. split; [reflexivity | vm_compute; discriminate].
  - apply (proj1 (setEntry_last_writer_wins
                    (sample.holding "svid-1" sample.entry2)
                    "svid-1" sample.entry1) sample.entry2);
      [reflexivity | reflexivity].
Defined.

(** The store keeps one entry per id, and a Put leaves every other id alone. *)
Lemma setEntry_other_ids (p : Plugin) (id j : string) (e : keyEntry) :
  id <> j -> entries (snd (setEntry id e p)) !! j = entries p !! j.
Proof.
  intros Hne. unfold setEntry.
  destruct (match entries p !! id with Some _ => _ | None => _ end); simpl;
    [reflexivity | now rewrite lookup_insert_ne].
Qed.

Lemma setEntry_frame (p : Plugin) (id : string) (e : keyEntry) :
  log (snd (setEntry id e p)) = log p
  /\ config (snd (setEntry id e p)) = config p
  /\ kmsClient (snd (setEntry id e p)) = kmsClient p.
Proof.
  unfold setEntry.
  destruct (match entries p !! id with Some _ => _ | None => _ end); simpl; auto.
Qed.

(** What a Put does to the store depends on the store alone. *)
Lemma entries_setEntry (p : Plugin) (id : string) (e : keyEntry) :
  entries (snd (setEntry id e p)) = storeAfterPut (entries p) (id, e).
Proof.
  unfold storeAfterPut, setEntry. simpl.
  destruct (match entries p !! id with Some _ => _ | None => _ end); reflexivity.
Qed.

(** After any sequence of Puts under an id that had an entry, the entry
    under the id is the first one or one of those Put, and none of them has
    a later creation time, in whole seconds. *)
Theorem putAll_keeps_latest (id : string) (es : list keyEntry) (p : Plugin)
  (e0 : keyEntry) :
  entries p !! id = Some e0 ->
  exists cur,
    entries (putAll id es p) !! id = Some cur
    /\ time.Unix (CreationDate e0) <= time.Unix (CreationDate cur)
    /\ Forall (fun e => time.Unix (CreationDate e) <= time.Unix (CreationDate cur)) es
    /\ (cur = e0 \/ In cur es).
Proof.
  revert p e0. induction es as [|e es IH]; intros p e0 H0.
  - exists e0. simpl. split; [exact H0|]. split; [lia|]. split; [constructor | now left].
  - unfold putAll. simpl. fold (putAll id es (snd (setEntry id e p))).
    unfold setEntry at 1. rewrite H0.
    destruct (Z.gtb_spec (time.Unix (CreationDate e0)) (time.Unix (CreationDate e)))
      as [Hgt | Hle]; simpl.
    + destruct (IH p e0 H0) as (cur & Hcur & Hge & Hall & Hin).
      exists cur. split; [exact Hcur|]. split; [exact Hge|]. split.
      * constructor; [lia | exact Hall].
      * destruct Hin as [-> | Hin]; [now left | right; now right].
    + destruct (IH (set_entries p (<[id := e]> (entries p))) e) as (cur & Hcur & Hge & Hall & Hin).
      { simpl. apply lookup_insert_eq. }
      exists cur. split; [exact Hcur|]. split; [lia|]. split.
      * constructor; [exact Hge | exact Hall].
      * right. destruct Hin as [-> | Hin]; [now left | now right].
Qed.

Lemma putAll_keeps_latest_witness :
  exists cur,
    entries (putAll "svid-1" [sample.entry2; sample.entry1']
               (sample.holding "svid-1" sample.entry1)) !! "svid-1" = Some cur
    /\ time.Unix (CreationDate sample.entry1) <= time.Unix (CreationDate cur)
    /\ Forall (fun e => time.Unix (CreationDate e) <= time.Unix (CreationDate cur))
         [sample.entry2; sample.entry1']
    /\ (cur = sample.entry1 \/ In cur [sample.entry2; sample.entry1']).
Proof.
  apply (putAll_keeps_latest "svid-1" [sample.entry2; sample.entry1']
           (sample.holding "svid-1" sample.entry1) sample.entry1).
  reflexivity.
Defined.

(** ** The type mapping *)

(** C4: every supported key type has a key spec, and that spec maps back to
    the key type. *)
Theorem keyType_round_trip (t : keymanager.KeyType) :
  In t supportedKeyTypes ->
  exists keySpec,
    keySpecFromKeyType t = Ok keySpec /\ keyTypeFromKeySpec keySpec = Ok t.
Proof.
  unfold supportedKeyTypes. simpl.
  intros [<- | [<- | [<- | [<- | []]]]]; eexists; split; reflexivity.
Qed.

Lemma keyType_round_trip_witness :
  exists keySpec,
    keySpecFromKeyType keymanager.KeyType_EC_P384 = Ok keySpec
    /\ keyTypeFromKeySpec keySpec = Ok keymanager.KeyType_EC_P384.
Proof.
  apply (keyType_round_trip keymanager.KeyType_EC_P384).
  simpl. right. right. right. left. reflexivity.
Defined.

(** The other way round: a spec that maps to a key type is the spec of that
    key type, so the two functions are inverses on the supported subset. *)
Lemma keySpec_round_trip (keySpec : string) (t : keymanager.KeyType) :
  keyTypeFromKeySpec keySpec = Ok t ->
  keySpecFromKeyType t = Ok keySpec /\ In t supportedKeyTypes.
Proof.
  unfold keyTypeFromKeySpec.
  repeat match goal with
         | |- context [String.eqb ?a ?b] =>
             destruct (String.eqb_spec a b) as [-> | _]
         end; intros [= <-]; simpl; auto 6.
Qed.

Lemma keySpec_round_trip_witness :
  keySpecFromKeyType keymanager.KeyType_RSA_4096 = Ok "RSA_4096"
  /\ In keymanager.KeyType_RSA_4096 supportedKeyTypes.
Proof.
  apply (keySpec_round_trip "RSA_4096" keymanager.KeyType_RSA_4096).
  reflexivity.
Defined.

(** The key types with no key spec. *)
Lemma keySpecFromKeyType_unsupported (t : keymanager.KeyType) (err : error) :
  keySpecFromKeyType t = Error err ->
  (t = keymanager.KeyType_RSA_1024 /\ err = kmsErr_New "unsupported")
  \/ (t = keymanager.KeyType_UNSPECIFIED_KEY_TYPE
      /\ err = kmsErr_New "unknown and unsupported").
Proof. destruct t; simpl; intros [= <-]; auto. Qed.

(** ** Lookups *)

(** C10: with an empty key id [GetPublicKey] answers the error
    "KeyId is required" whatever the store holds and leaves the plugin as it
    was; with a non-empty id that has no entry it answers an empty response,
    not an error. *)
Theorem GetPublicKey_empty_id_and_absent (p : Plugin) (id : string) :
  GetPublicKey {| keymanager.GetPublicKeyRequest_KeyId := "" |} p
  = (Error (kmsErr_New "KeyId is required"), p)
  /\ (id <> "" -> entries p !! id = None ->
      GetPublicKey {| keymanager.GetPublicKeyRequest_KeyId := id |} p
      = (Ok {| keymanager.GetPublicKeyResponse_PublicKey := None |}, p)).
Proof.
  split; [reflexivity|].
  intros Hid Hnone. unfold GetPublicKey, entry. simpl.
  destruct (String.eqb_spec id ""); [contradiction|].
  now rewrite Hnone.
Qed.

Lemma GetPublicKey_empty_id_and_absent_witness :
  GetPublicKey {| keymanager.GetPublicKeyRequest_KeyId := "" |}
    (sample.holding "" sample.entry1)
  = (Error (kmsErr_New "KeyId is required"), sample.holding "" sample.entry1)
  /\ GetPublicKey {| keymanager.GetPublicKeyRequest_KeyId := "svid-9" |}
       (sample.holding "svid-1" sample.entry1)
     = (Ok {| keymanager.GetPublicKeyResponse_PublicKey := None |},
        sample.holding "svid-1" sample.entry1).
Proof.
  split.
  - apply (proj1 (GetPublicKey_empty_id_and_absent
                    (sample.holding "" sample.entry1) "svid-9")).
  - apply (proj2 (GetPublicKey_empty_id_and_absent
                    (sample.holding "svid-1" sample.entry1) "svid-9"));
      [discriminate | reflexivity].
Defined.

(** A lookup that finds an entry answers its public key. *)
Lemma GetPublicKey_found (p : Plugin) (id : string) (e : keyEntry) :
  id <> "" -> entries p !! id = Some e ->
  GetPublicKey {| keymanager.GetPublicKeyRequest_KeyId := id |} p
  = (Ok {| keymanager.GetPublicKeyResponse_PublicKey := Some (PublicKey e) |}, p).
Proof.
  intros Hid Hsome. unfold GetPublicKey, entry. simpl.
  destruct (String.eqb_spec id ""); [contradiction|].
  now rewrite Hsome.
Qed.

Lemma GetPublicKey_found_witness :
  GetPublicKey {| keymanager.GetPublicKeyRequest_KeyId := "svid-1" |}
    (sample.holding "svid-1" sample.entry1)
  = (Ok {| keymanager.GetPublicKeyResponse_PublicKey :=
             Some (PublicKey sample.entry1) |},
     sample.holding "svid-1" sample.entry1).
Proof.
  apply (GetPublicKey_found (sample.holding "svid-1" sample.entry1)
           "svid-1" sample.entry1); [discriminate | reflexivity].
Defined.

(** ** The keys that get a Put *)

Section SnapshotFacts.

Variable descr : string -> result kms.KeyMetadata.
Variable pubk : string -> result kms.GetPublicKeyOutput.

Lemma putOf_reconcilable (k : string) :
  match putOf descr pubk k with
  | Some (_, e) => reconcilable descr pubk k = true /\ AwsKeyID e = k
  | None => reconcilable descr pubk k = false
  end.
Proof.
  unfold putOf, reconciled, reconcilable, supportedSpec, fetched.
  destruct (descr k) as [md |]; [|reflexivity].
  destruct (pubk k) as [pub |];
    destruct (keyTypeFromKeySpec _), (owned md); simpl; auto.
Qed.

(** The handles of the keys that get a Put are the reconcilable keys, in the
    order of the listing. *)
Lemma putOf_handles (keys : list string) :
  (fun put => AwsKeyID (snd put)) <$> omap (putOf descr pubk) keys
  = List.filter (reconcilable descr pubk) keys.
Proof.
  induction keys as [|k keys IH]; [reflexivity|].
  pose proof (putOf_reconcilable k) as Hk.
  change (omap (putOf descr pubk) (k :: keys))
    with (match putOf descr pubk k with
          | Some put => put :: omap (putOf descr pubk) keys
          | None => omap (putOf descr pubk) keys
          end).
  simpl List.filter.
  destruct (putOf descr pubk k) as [[id e] |].
  - destruct Hk as [-> <-]. rewrite fmap_cons. simpl. now rewrite IH.
  - now rewrite Hk.
Qed.

Lemma putOf_not_owned (k : string) (md : kms.KeyMetadata) :
  descr k = Ok md -> owned md = false -> putOf descr pubk k = None.
Proof.
  intros Hd Ho. unfold putOf, reconciled. rewrite Hd, Ho.
  destruct (pubk k); [|reflexivity].
  now destruct (keyTypeFromKeySpec _).
Qed.

End SnapshotFacts.

(** ** Operations that talk to the service *)

(** The tag stays folded while the operations are unfolded. *)
Opaque keyPrefix.

Section ServiceFacts.

Context {B : Type} {client : KMSClient B} {host : Host}.

Implicit Types (w : World (B := B)) (p : Plugin).

Lemma viaClient_set {A} (c : call) (op : B -> result A * B) w (km : KMS) :
  kmsClient (plug w) = Some km ->
  viaClient c op w
  = Some (fst (op (service w)),
          {| plug := plug w; service := snd (op (service w));
             calls := calls w ++ [c] |}).
Proof.
  intros H. unfold viaClient, invoke. rewrite H.
  now destruct (op (service w)).
Qed.

Lemma onPlugin_setEntry (id : string) (e : keyEntry) w :
  onPlugin (setEntry id e) w
  = Some (fst (setEntry id e (plug w)),
          {| plug := snd (setEntry id e (plug w)); service := service w;
             calls := calls w |}).
Proof. unfold onPlugin. now destruct (setEntry id e (plug w)). Qed.

(** *** GenerateKey *)

(** C8: a [GenerateKey] for a key type with no key spec returns the error of
    the type mapping and leaves the world as it was: no call reaches the
    service and the store is not touched.  The error for RSA-1024 says
    "unsupported", the one for an unknown key type says "unknown and
    unsupported", and the two messages differ. *)
Theorem GenerateKey_unsupported_fails_fast
  (req : keymanager.GenerateKeyRequest) w (err : error) :
  keySpecFromKeyType (keymanager.GenerateKeyRequest_KeyType req) = Error err ->
  GenerateKey req w = Some (Error err, w)
  /\ err = match keymanager.GenerateKeyRequest_KeyType req with
           | keymanager.KeyType_RSA_1024 => kmsErr_New "unsupported"
           | _ => kmsErr_New "unknown and unsupported"
           end
  /\ Error_string (kmsErr_New "unsupported")
     <> Error_string (kmsErr_New "unknown and unsupported").
Proof.
  intros H. split; [|split].
  - unfold GenerateKey. rewrite H. reflexivity.
  - destruct (keymanager.GenerateKeyRequest_KeyType req); simpl in H;
      congruence.
  - discriminate.
Qed.

(** C3: [GenerateKey] on a configured plugin returns, and the deletion
    requests among the calls it makes are exactly [expectedDeletions]: one
    request, for the handle of the entry found under the id before the Put,
    when there was such an entry and the Put was accepted; none otherwise.
    The new key's handle gets no deletion request, given that the service
    hands out a handle other than the old entry's.  When the Put is
    rejected, no deletion is requested, the store is as before (the created
    key stays in the service, unreferenced) and the call still answers the
    new public key. *)
Theorem GenerateKey_decommissions_old_key
  (req : keymanager.GenerateKeyRequest) w (km : KMS) :
  kmsClient (plug w) = Some km ->
  exists r w' new,
    GenerateKey req w = Some (r, w')
    /\ calls w' = calls w ++ new
    /\ omap deletionTarget new = expectedDeletions req w
    /\ (forall newEntry, newEntryOf req (service w) = Some newEntry ->
        (forall oldEntry,
           entries (plug w) !! keymanager.GenerateKeyRequest_KeyId req = Some oldEntry ->
           AwsKeyID oldEntry <> AwsKeyID newEntry) ->
        AwsKeyID newEntry ∉ omap deletionTarget new)
    /\ (forall newEntry, newEntryOf req (service w) = Some newEntry ->
        fst (setEntry (keymanager.GenerateKeyRequest_KeyId req) newEntry (plug w)) = false ->
        omap deletionTarget new = []
        /\ plug w' = plug w
        /\ r = Ok {| keymanager.GenerateKeyResponse_PublicKey := PublicKey newEntry |}).
Proof.
  intros Hkm.
  unfold expectedDeletions, newEntryOf, GenerateKey.
  destruct (keySpecFromKeyType _) as [keySpec | err].
  2: { exists (Error err), w, []. rewrite app_nil_r.
       split5; try reflexivity; intros; discriminate. }
  set (input := {| kms.CreateKeyInput_Description := _ |}).
  unfold bind at 1. rewrite (viaClient_set _ _ _ _ Hkm).
  destruct (CreateKeyWithContext input (service w)) as [[md | err] b1]; simpl.
  2: { eexists (Error err), _, [CreateKey input].
       split5; try reflexivity; intros; discriminate. }
  unfold bind at 1. rewrite (viaClient_set _ _ _ km) by exact Hkm. simpl.
  destruct (GetPublicKeyWithContext (kms.KeyId md) b1) as [[pub | err] b2]; simpl.
  2: { eexists (Error err), _, [CreateKey input; FetchPublicKey (kms.KeyId md)].
       split5; try reflexivity; try (intros; discriminate).
       simpl. now rewrite <- app_assoc. }
  set (newEntry := {| AwsKeyID := _ |}).
  unfold bind at 1, readPlugin at 1, entry. simpl.
  unfold bind at 1. rewrite onPlugin_setEntry. simpl.
  destruct (entries (plug w) !! keymanager.GenerateKeyRequest_KeyId req)
    as [oldEntry |] eqn:Hold.
  2: { assert (Hok : fst (setEntry (keymanager.GenerateKeyRequest_KeyId req)
                            newEntry (plug w)) = true)
         by (unfold setEntry; now rewrite Hold).
       eexists _, _, [CreateKey input; FetchPublicKey (kms.KeyId md)].
       split5; try reflexivity.
       - simpl. now rewrite <- app_assoc.
       - intros ne _ _. simpl. apply not_elem_of_nil.
       - intros ne [= <-] Hno. congruence. }
  destruct (setEntry _ newEntry (plug w)) as [ok p'] eqn:Hput. simpl.
  destruct ok.
  - unfold bind at 1.
    assert (Hkm' : kmsClient p' = Some km).
    { pose proof (setEntry_frame (plug w) (keymanager.GenerateKeyRequest_KeyId req)
                    newEntry) as (_ & _ & Hc).
      rewrite Hput in Hc. simpl in Hc. congruence. }
    rewrite (viaClient_set _ _ _ km) by exact Hkm'. simpl.
    destruct (ScheduleKeyDeletionWithContext (AwsKeyID oldEntry) b2)
      as [[[] | err] b3]; simpl;
      (eexists _, _, [CreateKey input; FetchPublicKey (kms.KeyId md);
                      ScheduleKeyDeletion (AwsKeyID oldEntry)];
       split5; try reflexivity;
       [ simpl; now rewrite <- !app_assoc
       | intros ne [= <-] Hfresh; simpl; rewrite list_elem_of_singleton;
         intros Heq; exact (Hfresh oldEntry eq_refl (eq_sym Heq))
       | intros ne [= <-] Hno; rewrite Hput in Hno; discriminate ]).
  - assert (Hp' : p' = plug w).
    { unfold setEntry in Hput.
      destruct (match entries (plug w) !! _ with Some _ => _ | None => _ end);
        [now injection Hput | discriminate]. }
    subst p'.
    eexists _, _, [CreateKey input; FetchPublicKey (kms.KeyId md)].
    split5; try reflexivity.
    + simpl. now rewrite <- app_assoc.
    + intros ne _ _. simpl. apply not_elem_of_nil.
    + intros ne [= <-] _. split; [|split]; reflexivity.
Qed.

(** *** SignData *)

(** [SignData] on an id with an entry makes one call, a digest-mode [Sign]
    on the entry's handle, and the algorithm it passes is the constant
    [ECDSA_SHA_256]: the entry's key type is not looked at. *)
Lemma SignData_call (req : keymanager.SignDataRequest) w (km : KMS)
  (e : keyEntry) :
  kmsClient (plug w) = Some km ->
  entries (plug w) !! keymanager.SignDataRequest_KeyId req = Some e ->
  exists r w',
    SignData req w = Some (r, w')
    /\ plug w' = plug w
    /\ calls w'
       = calls w
         ++ [Sign {| kms.SignInput_KeyId := AwsKeyID e;
                     kms.SignInput_Message := keymanager.SignDataRequest_Data req;
                     kms.SignInput_MessageType := kms.MessageTypeDigest;
                     kms.SignInput_SigningAlgorithm :=
                       kms.SigningAlgorithmSpecEcdsaSha256 |}].
Proof.
  intros Hkm He. unfold SignData.
  unfold bind at 1, readPlugin at 1, entry. rewrite He.
  unfold bind at 1. rewrite (viaClient_set _ _ _ km) by exact Hkm.
  destruct (SignWithContext _ (service w)) as [[sig | err] b1]; simpl;
    eexists _, _; split; reflexivity || (split; reflexivity).
Qed.

(** An id with no entry is an error, and nothing is called. *)
Lemma SignData_not_found (req : keymanager.SignDataRequest) w :
  entries (plug w) !! keymanager.SignDataRequest_KeyId req = None ->
  SignData req w
  = Some (Error (kmsErr_New ("unable to find KeyId: "
                             +:+ keymanager.SignDataRequest_KeyId req)), w).
Proof.
  intros He. unfold SignData.
  unfold bind at 1, readPlugin at 1, entry. now rewrite He.
Qed.

(** *** Reconciliation *)

(** One key: [processKMSKey] on a configured plugin returns; it describes
    the key, fetches its public key when the key is supported and owned, and
    makes the Put of [reconciled], or none. *)
Lemma processKMSKey_spec (k : string) w (km : KMS) :
  kmsClient (plug w) = Some km ->
  let d := DescribeKeyWithContext k (service w) in
  let g := GetPublicKeyWithContext k (snd d) in
  exists err,
    processKMSKey k w
    = Some (err,
            {| plug := match reconciled k (fst d) (fst g) with
                       | Some (id, e) => snd (setEntry id e (plug w))
                       | None => plug w
                       end;
               service := if fetches (fst d) then snd g else snd d;
               calls := calls w ++ DescribeKey k
                          :: (if fetches (fst d) then [FetchPublicKey k] else []) |}).
Proof.
  intros Hkm d g. subst d g. unfold processKMSKey.
  unfold bind at 1. rewrite (viaClient_set _ _ _ km) by exact Hkm.
  destruct (DescribeKeyWithContext k (service w)) as [[md | err] b1]; simpl.
  2: { exists (Some err). reflexivity. }
  unfold supportedSpec.
  destruct (keyTypeFromKeySpec (kms.CustomerMasterKeySpec md)) as [kt | err]; simpl.
  2: { exists (Some err).
       destruct (GetPublicKeyWithContext k b1) as [[pub | err'] b2]; reflexivity. }
  fold (owned md). destruct (owned md) eqn:Howned.
  2: { exists None.
       destruct (GetPublicKeyWithContext k b1) as [[pub | err'] b2]; reflexivity. }
  assert (Htag : strings.HasPrefix (kms.Description md) keyPrefix = true)
    by (unfold owned in Howned; now apply andb_prop in Howned).
  rewrite (descSplit_in_range _ Htag).
  unfold bind at 1. rewrite (viaClient_set _ _ _ km) by exact Hkm. simpl.
  destruct (GetPublicKeyWithContext k b1) as [[pub | err] b2]; simpl.
  2: { exists (Some err). now rewrite <- app_assoc. }
  exists None. unfold bind at 1. rewrite onPlugin_setEntry. simpl.
  now rewrite <- app_assoc.
Qed.

(** [processKMSKey] on a configured plugin never panics: [descSplit[1]] is
    only read after the prefix test passed, and then it is in range. *)
Theorem processKMSKey_returns (k : string) w (km : KMS) :
  kmsClient (plug w) = Some km ->
  exists err w', processKMSKey k w = Some (err, w').
Proof.
  intros Hkm. destruct (processKMSKey_spec k w km Hkm) as [err Hrun].
  eauto.
Qed.

Lemma reconciled_keeps_client (k : string) d g p :
  kmsClient (match reconciled k d g with
             | Some (id, e) => snd (setEntry id e p)
             | None => p
             end) = kmsClient p.
Proof.
  destruct (reconciled k d g) as [[id e] |]; [|reflexivity].
  apply setEntry_frame.
Qed.

(** The loop over the listed keys never stops early: whatever the service
    answers, every key is described, in order, nothing is deleted, and the
    loop returns with the client still set. *)
Lemma processKeys_runs (keys : list string) w (km : KMS) :
  kmsClient (plug w) = Some km ->
  exists w' new,
    processKeys keys w = Some (tt, w')
    /\ kmsClient (plug w') = Some km
    /\ config (plug w') = config (plug w)
    /\ calls w' = calls w ++ new
    /\ omap describeTarget new = keys
    /\ omap deletionTarget new = [].
Proof.
  revert w. induction keys as [|k keys IH]; intros w Hkm.
  - exists w, []. rewrite app_nil_r. auto 6.
  - destruct (processKMSKey_spec k w km Hkm) as [err Hrun].
    cbv zeta in Hrun. simpl processKeys. unfold bind at 1. rewrite Hrun.
    set (w1 := {| plug := _ |}) in *.
    assert (Hkm1 : kmsClient (plug w1) = Some km)
      by (subst w1; simpl; now rewrite reconciled_keeps_client).
    assert (Hcfg1 : config (plug w1) = config (plug w)).
    { subst w1; simpl. destruct (reconciled _ _ _) as [[id e] |]; [|reflexivity].
      apply setEntry_frame. }
    assert (Hstep : exists w2,
               (_ <- match err with
                     | Some e =>
                         onPlugin (fun p =>
                           (tt, add_log p {| logMsg := "Failed to process kms key.";
                                             logKeyId := k; logError := e |}))
                     | None => ret tt
                     end ;; processKeys keys) w1 = processKeys keys w2
               /\ kmsClient (plug w2) = Some km
               /\ config (plug w2) = config (plug w)
               /\ calls w2 = calls w1).
    { destruct err as [e |].
      - eexists. split; [reflexivity|]. simpl. auto.
      - exists w1. split; [reflexivity|]. auto. }
    destruct Hstep as (w2 & -> & Hkm2 & Hcfg2 & Hcalls2).
    destruct (IH w2 Hkm2) as (w' & new & Hrun' & Hkm' & Hcfg' & Hcalls' & Hd & Hdel).
    exists w', (DescribeKey k
                  :: (if fetches (fst (DescribeKeyWithContext k (service w)))
                      then [FetchPublicKey k] else []) ++ new).
    split5; [exact Hrun' | exact Hkm' | congruence | |].
    + rewrite Hcalls', Hcalls2. subst w1. simpl.
      now rewrite <- app_assoc.
    + destruct (fetches _); simpl; (split; [f_equal; exact Hd | exact Hdel]).
Qed.

(** *** Reconciliation of a stable key set *)

Section StableService.

Variable Inv : B -> Prop.
Variable descr : string -> result kms.KeyMetadata.
Variable pubk : string -> result kms.GetPublicKeyOutput.

Hypothesis describe_stable : forall k b, Inv b ->
  fst (DescribeKeyWithContext k b) = descr k
  /\ Inv (snd (DescribeKeyWithContext k b)).

Hypothesis fetch_stable : forall k b, Inv b ->
  fst (GetPublicKeyWithContext k b) = pubk k
  /\ Inv (snd (GetPublicKeyWithContext k b)).

Lemma processKeys_puts (keys : list string) w (km : KMS) :
  Inv (service w) ->
  kmsClient (plug w) = Some km ->
  exists w',
    processKeys keys w = Some (tt, w')
    /\ Inv (service w')
    /\ entries (plug w')
       = foldl storeAfterPut (entries (plug w)) (omap (putOf descr pubk) keys).
Proof.
  revert w. induction keys as [|k keys IH]; intros w Hinv Hkm.
  - exists w. auto.
  - destruct (processKMSKey_spec k w km Hkm) as [err Hrun].
    cbv zeta in Hrun. simpl processKeys. unfold bind at 1. rewrite Hrun.
    destruct (describe_stable k _ Hinv) as [Hd Hinv1].
    destruct (fetch_stable k _ Hinv1) as [Hg Hinv2].
    rewrite Hd, Hg. fold (putOf descr pubk k).
    set (w1 := {| plug := _ |}).
    assert (Hinv' : Inv (service w1))
      by (subst w1; cbn [service]; destruct (fetches (descr k)); assumption).
    assert (Hkm1 : kmsClient (plug w1) = Some km).
    { subst w1; simpl. unfold putOf. now rewrite reconciled_keeps_client. }
    assert (Hent : entries (plug w1)
                   = foldl storeAfterPut (entries (plug w))
                       (omap (putOf descr pubk) [k])).
    { subst w1; simpl. destruct (putOf descr pubk k) as [[id e] |]; simpl;
        [apply entries_setEntry | reflexivity]. }
    assert (Hstep : exists w2,
               (_ <- match err with
                     | Some e =>
                         onPlugin (fun p =>
                           (tt, add_log p {| logMsg := "Failed to process kms key.";
                                             logKeyId := k; logError := e |}))
                     | None => ret tt
                     end ;; processKeys keys) w1 = processKeys keys w2
               /\ kmsClient (plug w2) = Some km
               /\ entries (plug w2) = entries (plug w1)
               /\ service w2 = service w1).
    { destruct err as [e |].
      - eexists. split; [reflexivity|]. simpl. auto.
      - exists w1. split; [reflexivity|]. auto. }
    destruct Hstep as (w2 & -> & Hkm2 & Hent2 & Hsvc2).
    rewrite <- Hsvc2 in Hinv'.
    destruct (IH w2 Hinv' Hkm2) as (w' & Hrun' & Hinv'' & Hent').
    exists w'. split; [exact Hrun' | split; [exact Hinv''|]].
    rewrite Hent', Hent2, Hent.
    change (k :: keys) with ([k] ++ keys).
    now rewrite omap_app, foldl_app.
Qed.

(** C5, amended: over a key set that stays as it is while reconciliation
    runs, the loop over the listed keys leaves the store as Putting, in
    listing order, one entry for each reconcilable key would: a key that can
    be described, is enabled, carries the tag, has a supported spec and whose
    public key can be fetched.  A key that is disabled or lacks the tag gets
    no Put. *)
Theorem reconciliation_filter (keys : list string) w (km : KMS) :
  Inv (service w) ->
  kmsClient (plug w) = Some km ->
  exists w',
    processKeys keys w = Some (tt, w')
    /\ entries (plug w')
       = foldl storeAfterPut (entries (plug w)) (omap (putOf descr pubk) keys)
    /\ (fun put => AwsKeyID (snd put)) <$> omap (putOf descr pubk) keys
       = List.filter (reconcilable descr pubk) keys
    /\ (forall k md, descr k = Ok md -> owned md = false ->
        putOf descr pubk k = None).
Proof.
  intros Hinv Hkm.
  destruct (processKeys_puts keys w km Hinv Hkm) as (w' & Hrun & _ & Hent).
  exists w'. split; [exact Hrun | split; [exact Hent | split]].
  - apply putOf_handles.
  - apply putOf_not_owned.
Qed.

End StableService.

(** *** Configure *)

(** [configure] hands back whatever [hcl.Decode] produced: no field of the
    decoded configuration is looked at (the validation is a TODO in the
    source), so a configuration with empty credentials or region is taken. *)
Lemma configure_no_validation (c : string) (cfg : Config) :
  hcl_Decode c = Ok cfg -> configure c = Ok cfg.
Proof. intros H. unfold configure. now rewrite H. Qed.

Lemma configure_decode_error (c : string) (err : error) :
  hcl_Decode c = Error err ->
  configure c
  = Error (kmsErr_New ("unable to decode configuration: " +:+ Error_string err)).
Proof. intros H. unfold configure. now rewrite H. Qed.



(** C6: when the configuration decodes and the client is built, [Configure]
    returns; it answers the error of [ListKeys] when listing fails, and
    success otherwise, whatever happens to the individual keys: after the
    listing call every listed key is described, in order, so no key's
    failure keeps the loop from the keys after it. *)
Theorem Configure_isolates_key_failures
  (req : ConfigureRequest) w (cfg : Config) (km : KMS)
  (listed : result (list string)) (b' : B) :
  configure (Configuration req) = Ok cfg ->
  newKMSClient cfg = Ok km ->
  ListKeysWithContext (service w) = (listed, b') ->
  exists w' new,
    Configure req w
    = Some (match listed with
            | Ok _ => Ok ConfigureResponse_empty
            | Error err => Error err
            end, w')
    /\ calls w' = calls w ++ ListKeys :: new
    /\ omap describeTarget new = match listed with
                                 | Ok keys => keys
                                 | Error _ => []
                                 end
    /\ (forall err, listed = Error err ->
        new = [] /\ entries (plug w') = entries (plug w)).
Proof.
  intros Hcfg Hkm Hlist. unfold Configure. rewrite Hcfg.
  unfold bind at 1, onPlugin at 1. simpl. rewrite Hkm.
  unfold bind at 1, onPlugin at 1. simpl.
  unfold bind at 1, invoke at 1. simpl. rewrite Hlist.
  destruct listed as [keys | err].
  - set (w1 := {| plug := _ |}).
    destruct (processKeys_runs keys w1 km eq_refl)
      as (w' & new & Hrun & _ & _ & Hcalls & Hd & _).
    unfold bind at 1. rewrite Hrun. exists w', new.
    split; [reflexivity|]. split; [|split; [exact Hd | intros ? [=]]].
    rewrite Hcalls. subst w1. simpl. now rewrite <- app_assoc.
  - eexists _, []. split; [reflexivity|]. simpl. auto.
Qed.

End ServiceFacts.

Transparent keyPrefix.

(** ** Runs against the fake service *)


(** Configuring against the mixed service succeeds, logs the three keys
    that failed and stores the one good key. *)
Example Configure_mixed_service :
  match Configure {| Configuration := fake.fullConfigText |}
                  (fake.world New scenario.mixed) with
  | Some (Ok _, w') =>
      entries (plug w') = {[ "svid-1" := sample.entry1 ]}
      /\ logKeyId <$> log (plug w') = ["ghost"; "key-sym"; "key-broken"]
      /\ omap describeTarget (calls w')
         = ["ghost"; "key-sym"; "key-broken"; "key-off"; "key-other"; "key-1"]
  | _ => False
  end.
Proof. vm_compute. repeat split; reflexivity. Qed.

(** An empty service: configuring succeeds and there is no public key to
    list. *)
Example Configure_empty_service :
  match Configure {| Configuration := fake.fullConfigText |}
          (fake.world New {| fake.listing := Ok []; fake.table := [];
                             fake.unissued := [] |}) with
  | Some (Ok _, w') =>
      fst (GetPublicKeys (plug w')) = Ok {| keymanager.PublicKeys := [] |}
      /\ calls w' = [ListKeys]
  | _ => False
  end.
Proof. vm_compute. split; reflexivity. Qed.

(** Generate, then sign: the new key signs under its id, and an id that was
    never generated is not found. *)
Example GenerateKey_then_SignData :
  match GenerateKey scenario.rotate
          (fake.world scenario.configured scenario.mixed) with
  | Some (Ok resp, w1) =>
      keymanager.Id (keymanager.GenerateKeyResponse_PublicKey resp) = "svid-1"
      /\ omap deletionTarget (calls w1) = []
      /\ fst <$> SignData {| keymanager.SignDataRequest_KeyId := "svid-1";
                             keymanager.SignDataRequest_Data := departures.digest |} w1
         = Some (Ok {| keymanager.Signature := departures.digest |})
      /\ fst <$> SignData {| keymanager.SignDataRequest_KeyId := "unknown-id";
                             keymanager.SignDataRequest_Data := departures.digest |} w1
         = Some (Error (kmsErr_New "unable to find KeyId: unknown-id"))
  | _ => False
  end.
Proof. vm_compute. repeat split; reflexivity. Qed.

(** Rotation: the second key for svid-1 replaces the first, and the first
    one's handle gets the only deletion request. *)
Example GenerateKey_rotation :
  match GenerateKey scenario.rotate scenario.beforeRotation with
  | Some (Ok resp, w') =>
      entries (plug w') !! "svid-1" = Some sample.entry2
      /\ keymanager.GenerateKeyResponse_PublicKey resp = PublicKey sample.entry2
      /\ omap deletionTarget (calls w') = ["key-1"]
  | _ => False
  end.
Proof. vm_compute. repeat split; reflexivity. Qed.

Lemma GenerateKey_decommissions_old_key_witness :
  exists r w' new,
    GenerateKey scenario.rotate scenario.beforeRotation = Some (r, w')
    /\ calls w' = calls scenario.beforeRotation ++ new
    /\ omap deletionTarget new = ["key-1"]
    /\ "key-2" ∉ omap deletionTarget new.
Proof.
  destruct (GenerateKey_decommissions_old_key scenario.rotate
              scenario.beforeRotation scenario.client0 eq_refl)
    as (r & w' & new & Hrun & Hcalls & Hdel & Hfresh & _).
  exists r, w', new. split; [exact Hrun | split; [exact Hcalls | split]].
  - rewrite Hdel. vm_compute. reflexivity.
  - apply (Hfresh sample.entry2); [vm_compute; reflexivity|].
    intros oldEntry Hold. vm_compute in Hold.
    injection Hold as <-. vm_compute. discriminate.
Defined.

Lemma processKMSKey_returns_witness :
  exists err w',
    processKMSKey "key-1" (fake.world scenario.configured scenario.mixed)
    = Some (err, w').
Proof.
  apply (processKMSKey_returns "key-1"
           (fake.world scenario.configured scenario.mixed) scenario.client0).
  reflexivity.
Defined.

Lemma SignData_call_witness :
  exists r w',
    SignData {| keymanager.SignDataRequest_KeyId := "svid-1";
                keymanager.SignDataRequest_Data := departures.digest |}
             scenario.beforeRotation = Some (r, w')
    /\ plug w' = plug scenario.beforeRotation
    /\ calls w'
       = calls scenario.beforeRotation
         ++ [Sign {| kms.SignInput_KeyId := "key-1";
                     kms.SignInput_Message := departures.digest;
                     kms.SignInput_MessageType := "DIGEST";
                     kms.SignInput_SigningAlgorithm := "ECDSA_SHA_256" |}].
Proof.
  apply (SignData_call
           {| keymanager.SignDataRequest_KeyId := "svid-1";
              keymanager.SignDataRequest_Data := departures.digest |}
           scenario.beforeRotation scenario.client0 sample.entry1);
    reflexivity.
Defined.

Lemma SignData_not_found_witness :
  SignData {| keymanager.SignDataRequest_KeyId := "unknown-id";
              keymanager.SignDataRequest_Data := departures.digest |}
           scenario.beforeRotation
  = Some (Error (kmsErr_New "unable to find KeyId: unknown-id"),
          scenario.beforeRotation).
Proof.
  apply (SignData_not_found
           {| keymanager.SignDataRequest_KeyId := "unknown-id";
              keymanager.SignDataRequest_Data := departures.digest |}
           scenario.beforeRotation).
  reflexivity.
Defined.

Lemma GenerateKey_unsupported_fails_fast_witness :
  GenerateKey {| keymanager.GenerateKeyRequest_KeyId := "svid-1";
                 keymanager.GenerateKeyRequest_KeyType := keymanager.KeyType_RSA_1024 |}
              scenario.beforeRotation
  = Some (Error (kmsErr_New "unsupported"), scenario.beforeRotation).
Proof.
  apply (GenerateKey_unsupported_fails_fast
           {| keymanager.GenerateKeyRequest_KeyId := "svid-1";
              keymanager.GenerateKeyRequest_KeyType := keymanager.KeyType_RSA_1024 |}
           scenario.beforeRotation (kmsErr_New "unsupported")).
  reflexivity.
Defined.

Lemma Configure_isolates_key_failures_witness :
  exists w' new,
    Configure {| Configuration := fake.fullConfigText |}
              (fake.world New scenario.mixed)
    = Some (Ok ConfigureResponse_empty, w')
    /\ calls w' = [] ++ ListKeys :: new
    /\ omap describeTarget new
       = ["ghost"; "key-sym"; "key-broken"; "key-off"; "key-other"; "key-1"].
Proof.
  assert (Hcfg : configure fake.fullConfigText = Ok scenario.fullConfig)
    by (vm_compute; reflexivity).
  assert (Hlist : ListKeysWithContext scenario.mixed
                  = (Ok ["ghost"; "key-sym"; "key-broken"; "key-off";
                         "key-other"; "key-1"], scenario.mixed))
    by reflexivity.
  destruct (Configure_isolates_key_failures
              {| Configuration := fake.fullConfigText |}
              (fake.world New scenario.mixed)
              scenario.fullConfig scenario.fullClient
              (Ok ["ghost"; "key-sym"; "key-broken"; "key-off"; "key-other"; "key-1"])
              scenario.mixed Hcfg eq_refl Hlist)
    as (w' & new & Hrun & Hcalls & Hd & _).
  exists w', new. auto.
Defined.

(** A failing [ListKeys] fails [Configure] with that error. *)
Example Configure_listing_fails :
  Configure {| Configuration := fake.fullConfigText |}
    (fake.world New {| fake.listing := Error (foreign_error "AccessDeniedException");
                       fake.table := []; fake.unissued := [] |})
  = Some (Error (foreign_error "AccessDeniedException"),
          {| plug := {| log := []; config := Some scenario.fullConfig;
                        entries := ∅; kmsClient := Some scenario.fullClient |};
             service := {| fake.listing := Error (foreign_error "AccessDeniedException");
                           fake.table := []; fake.unissued := [] |};
             calls := [ListKeys] |}).
Proof. reflexivity. Qed.

(** C5, as the claim has it, fails on a key whose public key cannot be
    fetched: the key is enabled, carries the tag and has a supported spec,
    and reconciliation leaves the store empty. *)
Lemma reconciliation_skips_unfetchable_key :
  let md := fake.metadata (scenario.keyOf "key-broken" "RSA_2048"
                             "SPIRE_SERVER_KEY:svid-broken" true
                             (Error (foreign_error "KMSInternalException"))) in
  fst (fake.describeKey "key-broken" scenario.mixed) = Ok md
  /\ kms.Enabled md = true
  /\ strings.HasPrefix (kms.Description md) keyPrefix = true
  /\ keyTypeFromKeySpec (kms.CustomerMasterKeySpec md)
     = Ok keymanager.KeyType_RSA_2048
  /\ scenario.storeAfter
       (processKeys ["key-broken"] (fake.world scenario.configured scenario.mixed))
     = Some ∅.
Proof. cbv zeta. repeat split; vm_compute; reflexivity. Qed.

Lemma reconciliation_filter_witness :
  exists w',
    processKeys ["ghost"; "key-sym"; "key-broken"; "key-off"; "key-other"; "key-1"]
      (fake.world scenario.configured scenario.mixed) = Some (tt, w')
    /\ entries (plug w') = {[ "svid-1" := sample.entry1 ]}
    /\ List.filter
         (reconcilable (fun k => fst (fake.describeKey k scenario.mixed))
                       (fun k => fst (fake.getPublicKey k scenario.mixed)))
         ["ghost"; "key-sym"; "key-broken"; "key-off"; "key-other"; "key-1"]
       = ["key-1"].
Proof.
  assert (Hdescribe : forall k b, b = scenario.mixed ->
            fst (fake.describeKey k b) = fst (fake.describeKey k scenario.mixed)
            /\ snd (fake.describeKey k b) = scenario.mixed)
    by (intros k b ->; split; reflexivity).
  assert (Hfetch : forall k b, b = scenario.mixed ->
            fst (fake.getPublicKey k b) = fst (fake.getPublicKey k scenario.mixed)
            /\ snd (fake.getPublicKey k b) = scenario.mixed)
    by (intros k b ->; split; reflexivity).
  destruct (reconciliation_filter (client := fake.client)
              (fun b => b = scenario.mixed)
              (fun k => fst (fake.describeKey k scenario.mixed))
              (fun k => fst (fake.getPublicKey k scenario.mixed))
              Hdescribe Hfetch
              ["ghost"; "key-sym"; "key-broken"; "key-off"; "key-other"; "key-1"]
              (fake.world scenario.configured scenario.mixed)
              scenario.client0 eq_refl eq_refl)
    as (w' & Hrun & Hent & _ & _).
  exists w'. split; [exact Hrun | split].
  - rewrite Hent. vm_compute. reflexivity.
  - vm_compute. reflexivity.
Defined.

(** ** Where the code departs from what it is meant to do *)

(** C2 (the code departs): the store holds an RSA-2048 entry and an EC P-384
    entry; [SignData] on either passes [ECDSA_SHA_256] to the service, which
    is neither an RSA algorithm nor the ECDSA variant of P-384. *)
Lemma SignData_algorithm_ignores_key_type :
  (keymanager.Type_ (PublicKey sample.rsaEntry) = keymanager.KeyType_RSA_2048
   /\ departures.algorithmsAfter
        (SignData {| keymanager.SignDataRequest_KeyId := "svid-rsa";
                     keymanager.SignDataRequest_Data := departures.digest |}
           (fake.world (sample.holding "svid-rsa" sample.rsaEntry)
                       departures.signingService))
      = Some ["ECDSA_SHA_256"]
   /\ departures.inList "ECDSA_SHA_256"
        (departures.specSigningAlgorithms keymanager.KeyType_RSA_2048) = false)
  /\ (keymanager.Type_ (PublicKey departures.p384Entry) = keymanager.KeyType_EC_P384
      /\ departures.algorithmsAfter
           (SignData {| keymanager.SignDataRequest_KeyId := "svid-384";
                        keymanager.SignDataRequest_Data := departures.digest |}
              (fake.world (sample.holding "svid-384" departures.p384Entry)
                          departures.signingService))
         = Some ["ECDSA_SHA_256"]
      /\ departures.inList "ECDSA_SHA_256"
           (departures.specSigningAlgorithms keymanager.KeyType_EC_P384) = false).
Proof. repeat split; vm_compute; reflexivity. Qed.

(** C7 (the code departs): [GenerateKey] for the id [aSPIRE_SERVER_KEY:b]
    labels the new key [SPIRE_SERVER_KEY:aSPIRE_SERVER_KEY:b] and stores it
    under that id; a plugin configured afterwards against the same service
    reads the id [aSPIRE_SERVER_KEY:] out of that label, and has nothing
    under the id the key was generated for. *)
Lemma reconciled_id_stops_at_second_tag :
  scenario.storeAfter
    (GenerateKey departures.nestedRequest
       (fake.world scenario.configured departures.emptyService))
  = Some {[ departures.nestedId :=
              {| AwsKeyID := "key-n"; CreationDate := sample.t1;
                 PublicKey := {| keymanager.Id := departures.nestedId;
                                 keymanager.Type_ := keymanager.KeyType_EC_P256;
                                 keymanager.PkixData := sample.pkix1 |} |} ]}
  /\ strings.SplitAfter (keyPrefix +:+ departures.nestedId) keyPrefix
     = ["SPIRE_SERVER_KEY:"; "aSPIRE_SERVER_KEY:"; "b"]
  /\ departures.restartAfterGenerate
     = Some {[ "aSPIRE_SERVER_KEY:" :=
                 {| AwsKeyID := "key-n"; CreationDate := sample.t1;
                    PublicKey := {| keymanager.Id := "aSPIRE_SERVER_KEY:";
                                    keymanager.Type_ := keymanager.KeyType_EC_P256;
                                    keymanager.PkixData := sample.pkix1 |} |} ]}
  /\ (fun m : gmap string keyEntry => m !! departures.nestedId)
       <$> departures.restartAfterGenerate = Some None.
Proof. repeat split; vm_compute; reflexivity. Qed.

(** C9 (the code departs): a configuration that sets only the access key id
    decodes to a [Config] with an empty secret and an empty region;
    [configure] accepts it, and [Configure] goes on to build the client from
    it and to list the keys. *)
Lemma Configure_accepts_incomplete_configuration :
  configure fake.partialConfigText
  = Ok {| AccessKeyID := "AKIAEXAMPLE"; SecretAccessKey := ""; Region := "" |}
  /\ match Configure {| Configuration := fake.partialConfigText |}
                     (fake.world New scenario.mixed) with
     | Some (Ok _, w') =>
         kmsClient (plug w')
         = Some {| session := {| Credentials := ("AKIAEXAMPLE", "", "");
                                 awsConfig_Region := "" |} |}
         /\ hd_error (calls w') = Some ListKeys
     | _ => False
     end.
Proof. split; vm_compute; [reflexivity | split; reflexivity]. Qed.

(** * More of the store *)

(** ** Put, then look up *)

(** The entry under an id after a Put under it. *)
Lemma setEntry_then_GetPublicKey_aux (p : Plugin) (id : string) (e : keyEntry) :
  exists cur,
    entries (snd (setEntry id e p)) !! id = Some cur
    /\ (fst (setEntry id e p) = true -> cur = e)
    /\ (fst (setEntry id e p) = false ->
        entries p !! id = Some cur
        /\ time.Unix (CreationDate e) < time.Unix (CreationDate cur)).
Proof.
  unfold setEntry. destruct (entries p !! id) as [old |] eqn:Hold.
  - destruct (Z.gtb_spec (time.Unix (CreationDate old)) (time.Unix (CreationDate e)));
      simpl.
    + exists old. split; [exact Hold|]. split; [discriminate|].
      intros _. split; [reflexivity | lia].
    + exists e. split; [apply lookup_insert_eq|]. split; [reflexivity | discriminate].
  - simpl. exists e. split; [apply lookup_insert_eq|]. split; [reflexivity | discriminate].
Qed.

(** After a Put under a non-empty id, a lookup of the id answers the public
    key of the entry the store now holds: the new entry when the Put was
    accepted, the entry that was there when it was rejected. *)
Theorem setEntry_then_GetPublicKey (p : Plugin) (id : string) (e : keyEntry) :
  id <> "" ->
  exists cur,
    entries (snd (setEntry id e p)) !! id = Some cur
    /\ GetPublicKey {| keymanager.GetPublicKeyRequest_KeyId := id |}
         (snd (setEntry id e p))
       = (Ok {| keymanager.GetPublicKeyResponse_PublicKey := Some (PublicKey cur) |},
          snd (setEntry id e p))
    /\ (fst (setEntry id e p) = true -> cur = e)
    /\ (fst (setEntry id e p) = false ->
        entries p !! id = Some cur
        /\ time.Unix (CreationDate e) < time.Unix (CreationDate cur)).
Proof.
  intros Hid.
  pose proof (setEntry_then_GetPublicKey_aux p id e) as Hcur.
  destruct Hcur as (cur & Hlook & Hacc & Hrej).
  exists cur. split; [exact Hlook|]. split; [|split; assumption].
  unfold GetPublicKey, entry. simpl.
  destruct (String.eqb_spec id ""); [contradiction|].
  now rewrite Hlook.
Qed.

Lemma setEntry_then_GetPublicKey_witness :
  exists cur,
    entries (snd (setEntry "svid-1" sample.entry1
                    (sample.holding "svid-1" sample.entry2))) !! "svid-1" = Some cur
    /\ keymanager.PkixData (PublicKey cur) = sample.pkix2.
Proof.
  destruct (setEntry_then_GetPublicKey (sample.holding "svid-1" sample.entry2)
              "svid-1" sample.entry1) as (cur & Hlook & _ & _ & Hrej);
    [discriminate|].
  exists cur. split; [exact Hlook|].
  destruct (Hrej eq_refl) as [Hold _].
  vm_compute in Hold. injection Hold as <-. reflexivity.
Defined.

(** ** Listing the public keys *)

(** [GetPublicKeys] answers the public keys of the entries in the store, one
    per id, and changes nothing. *)
Theorem GetPublicKeys_lists_the_store (p : Plugin) :
  exists keys,
    GetPublicKeys p = (Ok {| keymanager.PublicKeys := keys |}, p)
    /\ length keys = size (entries p)
    /\ (forall pk, pk ∈ keys <->
          exists id e, entries p !! id = Some e /\ PublicKey e = pk).
Proof.
  exists (publicKeys p). split; [reflexivity|]. unfold publicKeys. split.
  - now rewrite length_fmap, length_map_to_list.
  - intros pk. rewrite list_elem_of_fmap. split.
    + intros ([id e] & -> & Hin). apply elem_of_map_to_list in Hin. eauto.
    + intros (id & e & Hlook & <-). exists (id, e). split; [reflexivity|].
      now apply elem_of_map_to_list.
Qed.

(** ** Sequences of Puts, id by id *)

Lemma lookup_storeAfterPut (m : gmap string keyEntry) (j id : string)
  (e : keyEntry) :
  storeAfterPut m (j, e) !! id
  = if String.eqb j id then putStep (m !! id) e else m !! id.
Proof.
  unfold storeAfterPut, setEntry, putStep. simpl.
  destruct (String.eqb_spec j id) as [-> | Hne].
  - destruct (m !! id) as [old |] eqn:Hold; simpl.
    + destruct (time.Unix (CreationDate old) >? time.Unix (CreationDate e)); simpl;
        [exact Hold | apply lookup_insert_eq].
    + apply lookup_insert_eq.
  - destruct (match m !! j with Some _ => _ | None => _ end); simpl;
      [reflexivity | now apply lookup_insert_ne].
Qed.

Lemma lookup_foldl_storeAfterPut (puts : list (string * keyEntry))
  (m : gmap string keyEntry) (id : string) :
  foldl storeAfterPut m puts !! id = settle (m !! id) (putsFor id puts).
Proof.
  revert m. induction puts as [|[j e] puts IH]; intros m; [reflexivity|].
  simpl foldl. rewrite IH, lookup_storeAfterPut. unfold putsFor. simpl.
  destruct (String.eqb j id); reflexivity.
Qed.

Lemma settle_snoc (o : option keyEntry) (es : list keyEntry) (e : keyEntry) :
  settle o (es ++ [e]) = putStep (settle o es) e.
Proof. unfold settle. now rewrite foldl_app. Qed.

(** What a sequence of Puts under one id ends with: nothing only when there
    was nothing and nothing was Put; otherwise the first entry or one of
    those Put, with no earlier creation time than any of them. *)
Lemma settle_spec (es : list keyEntry) (o : option keyEntry) :
  match settle o es with
  | Some x =>
      (o = Some x \/ In x es)
      /\ Forall (fun e => time.Unix (CreationDate e) <= time.Unix (CreationDate x)) es
      /\ (forall y, o = Some y ->
          time.Unix (CreationDate y) <= time.Unix (CreationDate x))
  | None => o = None /\ es = []
  end.
Proof.
  induction es as [|e es IH] using rev_ind.
  - simpl. destruct o as [x |]; [|auto].
    split; [now left|]. split; [constructor|]. intros y [= ->]. lia.
  - rewrite settle_snoc. destruct (settle o es) as [x |]; simpl.
    + destruct IH as (Hin & Hall & Hfirst).
      destruct (Z.gtb_spec (time.Unix (CreationDate x)) (time.Unix (CreationDate e))).
      * split; [destruct Hin; [now left | right; apply in_or_app; now left]|].
        split; [|exact Hfirst].
        apply Forall_app. split; [exact Hall | constructor; [lia | constructor]].
      * split; [right; apply in_or_app; right; now left|].
        split.
        -- apply Forall_app. split; [|constructor; [lia | constructor]].
           eapply Forall_impl; [exact Hall|]. simpl. intros; lia.
        -- intros y Hy. specialize (Hfirst y Hy). lia.
    + destruct IH as [-> ->]. simpl.
      split; [right; now left|]. split; [constructor; [lia | constructor]|].
      intros y [=].
Qed.

Lemma settle_idem (es : list keyEntry) (o : option keyEntry) :
  settle (settle o es) es = settle o es.
Proof.
  induction es as [|e es IH] using rev_ind; [reflexivity|].
  rewrite !settle_snoc.
  pose proof (settle_spec es o) as Hspec.
  destruct (settle o es) as [x |] eqn:Hx.
  - destruct Hspec as (_ & Hall & _). simpl.
    destruct (Z.gtb_spec (time.Unix (CreationDate x)) (time.Unix (CreationDate e)))
      as [Hgt | Hle].
    + rewrite IH. simpl.
      destruct (Z.gtb_spec (time.Unix (CreationDate x)) (time.Unix (CreationDate e)));
        [reflexivity | lia].
    + pose proof (settle_spec es (Some e)) as Hspec'.
      destruct (settle (Some e) es) as [y |]; [|now destruct Hspec'].
      destruct Hspec' as (Hin & _ & _). simpl.
      assert (Hy : time.Unix (CreationDate y) <= time.Unix (CreationDate e)).
      { destruct Hin as [[= ->] | Hin]; [lia|].
        rewrite Forall_forall in Hall. apply list_elem_of_In in Hin.
        specialize (Hall y Hin). simpl in Hall. lia. }
      destruct (Z.gtb_spec (time.Unix (CreationDate y)) (time.Unix (CreationDate e)));
        [lia | reflexivity].
  - destruct Hspec as [-> ->]. simpl.
    destruct (Z.gtb_spec (time.Unix (CreationDate e)) (time.Unix (CreationDate e)));
      [lia | reflexivity].
Qed.

(** Running the same Puts a second time changes nothing. *)
Lemma foldl_storeAfterPut_idem (puts : list (string * keyEntry))
  (m : gmap string keyEntry) :
  foldl storeAfterPut (foldl storeAfterPut m puts) puts
  = foldl storeAfterPut m puts.
Proof.
  apply map_eq. intros id.
  rewrite !lookup_foldl_storeAfterPut. apply settle_idem.
Qed.

(** ** What every Put keeps *)

Lemma storeGrows_refl (m : gmap string keyEntry) : storeGrows m m.
Proof. intros id e H. exists e. split; [exact H | lia]. Qed.

Lemma storeGrows_trans (m1 m2 m3 : gmap string keyEntry) :
  storeGrows m1 m2 -> storeGrows m2 m3 -> storeGrows m1 m3.
Proof.
  intros H12 H23 id e H. destruct (H12 id e H) as (e2 & H2 & Hle2).
  destruct (H23 id e2 H2) as (e3 & H3 & Hle3). exists e3. split; [exact H3 | lia].
Qed.

Lemma setEntry_grows (p : Plugin) (id : string) (e : keyEntry) :
  storeGrows (entries p) (entries (snd (setEntry id e p))).
Proof.
  intros j old Hj. destruct (String.eqb_spec id j) as [-> | Hne].
  - destruct (setEntry_then_GetPublicKey_aux p j e) as (cur & Hcur & Hacc & Hrej).
    exists cur. split; [exact Hcur|].
    destruct (fst (setEntry j e p)) eqn:Hok.
    + rewrite (Hacc eq_refl). unfold setEntry in Hok. rewrite Hj in Hok.
      destruct (Z.gtb_spec (time.Unix (CreationDate old)) (time.Unix (CreationDate e)));
        [discriminate | lia].
    + destruct (Hrej eq_refl) as [Hsame _]. rewrite Hj in Hsame.
      injection Hsame as <-. lia.
  - exists old. rewrite setEntry_other_ids by exact Hne. split; [exact Hj | lia].
Qed.

Lemma setEntry_consistent (p : Plugin) (id : string) (e : keyEntry) :
  keymanager.Id (PublicKey e) = id ->
  consistentIds (entries p) ->
  consistentIds (entries (snd (setEntry id e p))).
Proof.
  intros Hid Hp j x Hj. destruct (String.eqb_spec id j) as [-> | Hne].
  - destruct (setEntry_then_GetPublicKey_aux p j e) as (cur & Hcur & Hacc & Hrej).
    rewrite Hcur in Hj. injection Hj as <-.
    destruct (fst (setEntry j e p)).
    + now rewrite (Hacc eq_refl).
    + destruct (Hrej eq_refl) as [Hsame _]. now apply Hp.
  - rewrite setEntry_other_ids in Hj by exact Hne. now apply Hp.
Qed.

(** * More of the operations *)

Opaque keyPrefix.

Section MoreServiceFacts.

Context {B : Type} {client : KMSClient B} {host : Host}.

Implicit Types (w : World (B := B)) (p : Plugin).

(** ** GenerateKey, case by case *)

(** The run of [GenerateKey] for a supported key type on a configured
    plugin, along the answers of the service. *)
Lemma GenerateKey_cases (req : keymanager.GenerateKeyRequest) w (km : KMS)
  (keySpec : string) :
  kmsClient (plug w) = Some km ->
  keySpecFromKeyType (keymanager.GenerateKeyRequest_KeyType req) = Ok keySpec ->
  let id := keymanager.GenerateKeyRequest_KeyId req in
  let input := {| kms.CreateKeyInput_Description := keyPrefix +:+ id;
                  kms.CreateKeyInput_KeyUsage := kms.KeyUsageTypeSignVerify;
                  kms.CreateKeyInput_CustomerMasterKeySpec := keySpec |} in
  let c := CreateKeyWithContext input (service w) in
  match fst c with
  | Error err =>
      GenerateKey req w
      = Some (Error err, {| plug := plug w; service := snd c;
                            calls := calls w ++ [CreateKey input] |})
  | Ok md =>
      let g := GetPublicKeyWithContext (kms.KeyId md) (snd c) in
      let trace := calls w ++ [CreateKey input; FetchPublicKey (kms.KeyId md)] in
      match fst g with
      | Error err =>
          GenerateKey req w
          = Some (Error err, {| plug := plug w; service := snd g; calls := trace |})
      | Ok pub =>
          let newEntry :=
            {| AwsKeyID := kms.GetPublicKeyOutput_KeyId pub;
               CreationDate := kms.CreationDate md;
               PublicKey :=
                 {| keymanager.Id := id;
                    keymanager.Type_ := keymanager.GenerateKeyRequest_KeyType req;
                    keymanager.PkixData := kms.GetPublicKeyOutput_PublicKey pub |} |} in
          let resp := {| keymanager.GenerateKeyResponse_PublicKey := PublicKey newEntry |} in
          newEntryOf req (service w) = Some newEntry
          /\ match entries (plug w) !! id with
             | Some old =>
                 if fst (setEntry id newEntry (plug w)) then
                   let d := ScheduleKeyDeletionWithContext (AwsKeyID old) (snd g) in
                   GenerateKey req w
                   = Some (match fst d with
                           | Ok _ => Ok resp
                           | Error err => Error err
                           end,
                           {| plug := snd (setEntry id newEntry (plug w));
                              service := snd d;
                              calls := trace ++ [ScheduleKeyDeletion (AwsKeyID old)] |})
                 else
                   GenerateKey req w
                   = Some (Ok resp, {| plug := plug w; service := snd g;
                                       calls := trace |})
             | None =>
                 GenerateKey req w
                 = Some (Ok resp, {| plug := snd (setEntry id newEntry (plug w));
                                     service := snd g; calls := trace |})
             end
      end
  end.
Proof.
  intros Hkm Hspec id input c. subst c.
  remember (GenerateKey req w) as run eqn:Hrun.
  unfold GenerateKey in Hrun. unfold newEntryOf.
  rewrite Hspec in *. fold id in Hrun |- *. fold input in Hrun |- *.
  unfold bind at 1 in Hrun. rewrite (viaClient_set _ _ _ km) in Hrun by exact Hkm.
  destruct (CreateKeyWithContext input (service w)) as [[md | err] b1];
    cbn [fst snd] in *; [|exact Hrun].
  unfold bind at 1 in Hrun. rewrite (viaClient_set _ _ _ km) in Hrun by exact Hkm.
  cbn [plug service calls fst snd] in Hrun. rewrite <- app_assoc in Hrun.
  cbn [app] in Hrun.
  destruct (GetPublicKeyWithContext (kms.KeyId md) b1) as [[pub | err] b2];
    cbn [fst snd] in *; [|exact Hrun].
  split; [reflexivity|].
  set (newEntry := {| AwsKeyID := _ |}) in *.
  unfold bind at 1, readPlugin at 1, entry in Hrun.
  cbn [plug service calls fst snd] in Hrun.
  unfold bind at 1 in Hrun. rewrite onPlugin_setEntry in Hrun.
  cbn [plug service calls fst snd] in Hrun.
  destruct (entries (plug w) !! id) as [old |] eqn:Hold; [|exact Hrun].
  destruct (setEntry id newEntry (plug w)) as [ok p'] eqn:Hput.
  cbn [fst snd] in *.
  destruct ok.
  - assert (Hkm' : kmsClient p' = Some km).
    { pose proof (setEntry_frame (plug w) id newEntry) as (_ & _ & Hc).
      rewrite Hput in Hc. simpl in Hc. congruence. }
    unfold bind at 1 in Hrun. rewrite (viaClient_set _ _ _ km) in Hrun by exact Hkm'.
    cbn [plug service calls fst snd] in Hrun.
    destruct (ScheduleKeyDeletionWithContext (AwsKeyID old) b2) as [[[] | err] b3];
      exact Hrun.
  - assert (Hp' : p' = plug w).
    { unfold setEntry in Hput.
      destruct (match entries (plug w) !! id with Some _ => _ | None => _ end);
        [now injection Hput | discriminate]. }
    subst p'. exact Hrun.
Qed.

(** A [GenerateKey] that returns at all either stopped at the key type or
    ran on a configured plugin. *)
Lemma GenerateKey_returned (req : keymanager.GenerateKeyRequest) w r w' :
  GenerateKey req w = Some (r, w') ->
  (exists err, keySpecFromKeyType (keymanager.GenerateKeyRequest_KeyType req)
               = Error err /\ r = Error err /\ w' = w)
  \/ (exists keySpec km,
        keySpecFromKeyType (keymanager.GenerateKeyRequest_KeyType req) = Ok keySpec
        /\ kmsClient (plug w) = Some km).
Proof.
  unfold GenerateKey.
  destruct (keySpecFromKeyType _) as [keySpec | err].
  - unfold bind at 1, viaClient at 1.
    destruct (kmsClient (plug w)) as [km |]; [|discriminate].
    intros _. right. eauto.
  - intros [= <- <-]. left. eauto.
Qed.

(** Case analysis of a returned [GenerateKey] along [GenerateKey_cases]. *)
Ltac generate_cases Hrun :=
  let Hcases := fresh "Hcases" in
  lazymatch type of Hrun with
  | GenerateKey ?req ?w = Some _ =>
      let H := fresh "H" in
      destruct (GenerateKey_returned _ _ _ _ Hrun)
        as [(?err & ?Hspec & ?Hr & ?Hw) | (?keySpec & ?km & ?Hspec & ?Hkm)];
      [ | pose proof (GenerateKey_cases req w _ _ Hkm Hspec) as Hcases;
          cbv zeta in Hcases;
          destruct (CreateKeyWithContext _ (service w)) as [[?md | ?err] ?b1];
          cbn [fst snd] in Hcases;
          [ destruct (GetPublicKeyWithContext (kms.KeyId md) b1)
              as [[?pub | ?err] ?b2];
            cbn [fst snd] in Hcases;
            [ destruct Hcases as [?Hnew Hcases];
              destruct (entries (plug w) !! keymanager.GenerateKeyRequest_KeyId req)
                as [?old |] eqn:?Hold;
              [ destruct (fst (setEntry _ _ (plug w))) eqn:?Hok;
                [ destruct (ScheduleKeyDeletionWithContext (AwsKeyID old) b2)
                    as [[[] | ?err] ?b3]; cbn [fst snd] in Hcases | ]
              | ]
            | ]
          | ];
          rewrite Hcases in Hrun; clear Hcases ]
  end.

(** ** What a successful GenerateKey leaves behind *)

(** When [GenerateKey] answers a public key, that key carries the requested
    id and key type and is the one built from the created key; the store
    then holds an entry under the id, which is the new entry, or else the
    entry that was there, with a strictly later creation time (the Put was
    rejected: the key answered is then not the one lookups serve). *)
Theorem GenerateKey_answer (req : keymanager.GenerateKeyRequest) w
  (resp : keymanager.GenerateKeyResponse) w' :
  GenerateKey req w = Some (Ok resp, w') ->
  exists newEntry cur,
    newEntryOf req (service w) = Some newEntry
    /\ keymanager.GenerateKeyResponse_PublicKey resp = PublicKey newEntry
    /\ keymanager.Id (PublicKey newEntry) = keymanager.GenerateKeyRequest_KeyId req
    /\ keymanager.Type_ (PublicKey newEntry)
       = keymanager.GenerateKeyRequest_KeyType req
    /\ entries (plug w') !! keymanager.GenerateKeyRequest_KeyId req = Some cur
    /\ (cur = newEntry
        \/ (entries (plug w) !! keymanager.GenerateKeyRequest_KeyId req = Some cur
            /\ time.Unix (CreationDate newEntry) < time.Unix (CreationDate cur))).
Proof.
  intros Hrun. generate_cases Hrun; try discriminate;
    injection Hrun as <- <-;
    match goal with
    | Hnew : newEntryOf _ _ = Some ?ne |- _ =>
        pose proof (setEntry_then_GetPublicKey_aux (plug w)
                      (keymanager.GenerateKeyRequest_KeyId req) ne)
          as (cur & Hcur & Hacc & Hrej)
    end.
  - eexists _, cur. split5; [eassumption | reflexivity | reflexivity | reflexivity |].
    split; [exact Hcur | left; now apply Hacc].
  - eexists _, cur. split5; [eassumption | reflexivity | reflexivity | reflexivity |].
    destruct (Hrej Hok) as [Hsame Hlt].
    split; [exact Hsame | right; split; [congruence | exact Hlt]].
  - eexists _, cur. split5; [eassumption | reflexivity | reflexivity | reflexivity |].
    split; [exact Hcur | left; apply Hacc].
    unfold setEntry. now rewrite Hold.
Qed.

(** ** What a failed GenerateKey leaves behind *)


(** ** What GenerateKey leaves alone and what it calls *)

(** [GenerateKey] touches the store under its own id only, and neither the
    log, the configuration nor the client. *)
Theorem GenerateKey_frame (req : keymanager.GenerateKeyRequest) w r w' :
  GenerateKey req w = Some (r, w') ->
  (forall j, j <> keymanager.GenerateKeyRequest_KeyId req ->
     entries (plug w') !! j = entries (plug w) !! j)
  /\ log (plug w') = log (plug w)
  /\ config (plug w') = config (plug w)
  /\ kmsClient (plug w') = kmsClient (plug w).
Proof.
  intros Hrun.
  generate_cases Hrun; try (subst; auto; fail);
    injection Hrun as <- <-; cbn [plug]; auto;
    (split; [intros j Hj; apply setEntry_other_ids; congruence
            | apply setEntry_frame]).
Qed.

(** For a supported key type on a configured plugin, [GenerateKey] returns,
    and among its calls there is one [CreateKey]: for a sign/verify key of
    the mapped spec, labelled with the tag followed by the id.  It never
    lists, describes or signs. *)
Theorem GenerateKey_creates_one_key (req : keymanager.GenerateKeyRequest) w
  (km : KMS) (keySpec : string) :
  kmsClient (plug w) = Some km ->
  keySpecFromKeyType (keymanager.GenerateKeyRequest_KeyType req) = Ok keySpec ->
  exists r w' new,
    GenerateKey req w = Some (r, w')
    /\ calls w' = calls w ++ new
    /\ omap createInput new
       = [{| kms.CreateKeyInput_Description :=
               keyPrefix +:+ keymanager.GenerateKeyRequest_KeyId req;
             kms.CreateKeyInput_KeyUsage := "SIGN_VERIFY";
             kms.CreateKeyInput_CustomerMasterKeySpec := keySpec |}]
    /\ omap describeTarget new = []
    /\ omap signInput new = []
    /\ ListKeys ∉ new.
Proof.
  intros Hkm Hspec.
  pose proof (GenerateKey_cases req w km keySpec Hkm Hspec) as Hcases.
  cbv zeta in Hcases.
  set (input := {| kms.CreateKeyInput_Description := _ |}) in *.
  assert (Hnotin : forall l : list call,
             Forall (fun c => c <> ListKeys) l -> ListKeys ∉ l).
  { intros l Hall Hin. rewrite Forall_forall in Hall. now apply (Hall _ Hin). }
  destruct (CreateKeyWithContext input (service w)) as [[md | err] b1];
    cbn [fst snd] in Hcases.
  2: { eexists _, _, [CreateKey input]. split; [exact Hcases|].
       split5; try reflexivity. apply Hnotin. repeat constructor; discriminate. }
  destruct (GetPublicKeyWithContext (kms.KeyId md) b1) as [[pub | err] b2];
    cbn [fst snd] in Hcases.
  2: { eexists _, _, [CreateKey input; FetchPublicKey (kms.KeyId md)].
       split; [exact Hcases|].
       split5; try reflexivity. apply Hnotin. repeat constructor; discriminate. }
  destruct Hcases as [_ Hcases].
  destruct (entries (plug w) !! keymanager.GenerateKeyRequest_KeyId req) as [old |].
  - destruct (fst (setEntry _ _ (plug w))).
    + eexists _, _, [CreateKey input; FetchPublicKey (kms.KeyId md);
                     ScheduleKeyDeletion (AwsKeyID old)].
      split; [exact Hcases|].
      split5; try reflexivity.
      * cbn [calls]. now rewrite <- app_assoc.
      * apply Hnotin. repeat constructor; discriminate.
    + eexists _, _, [CreateKey input; FetchPublicKey (kms.KeyId md)].
      split; [exact Hcases|].
      split5; try reflexivity. apply Hnotin. repeat constructor; discriminate.
  - eexists _, _, [CreateKey input; FetchPublicKey (kms.KeyId md)].
    split; [exact Hcases|].
    split5; try reflexivity. apply Hnotin. repeat constructor; discriminate.
Qed.

(** ** One key of the listing *)

(** The run of [processKMSKey] on a configured plugin: the error it
    returns, the Put it makes, the calls it adds. *)
Lemma processKMSKey_outcome (k : string) w (km : KMS) :
  kmsClient (plug w) = Some km ->
  let d := DescribeKeyWithContext k (service w) in
  let g := GetPublicKeyWithContext k (snd d) in
  processKMSKey k w
  = Some (keyError (fst d) (fst g),
          {| plug := match reconciled k (fst d) (fst g) with
                     | Some (id, e) => snd (setEntry id e (plug w))
                     | None => plug w
                     end;
             service := if fetches (fst d) then snd g else snd d;
             calls := calls w ++ DescribeKey k
                        :: (if fetches (fst d) then [FetchPublicKey k] else []) |}).
Proof.
  intros Hkm d g. subst d g.
  destruct (processKMSKey_spec k w km Hkm) as [err Hrun]. cbv zeta in Hrun.
  rewrite Hrun. do 2 f_equal.
  (* the error, read off a second run of the same steps *)
  unfold processKMSKey in Hrun.
  unfold bind at 1 in Hrun. rewrite (viaClient_set _ _ _ km) in Hrun by exact Hkm.
  unfold keyError.
  destruct (DescribeKeyWithContext k (service w)) as [[md | e] b1];
    cbn [fst snd] in *; [|now injection Hrun].
  destruct (keyTypeFromKeySpec (kms.CustomerMasterKeySpec md)) as [kt | e];
    [|now injection Hrun].
  fold (owned md) in Hrun. destruct (owned md) eqn:Howned; [|now injection Hrun].
  assert (Htag : strings.HasPrefix (kms.Description md) keyPrefix = true)
    by (unfold owned in Howned; now apply andb_prop in Howned).
  rewrite (descSplit_in_range _ Htag) in Hrun.
  unfold bind at 1 in Hrun. rewrite (viaClient_set _ _ _ km) in Hrun by exact Hkm.
  cbn [plug service calls fst snd] in Hrun.
  destruct (GetPublicKeyWithContext k b1) as [[pub | e] b2];
    cbn [fst snd] in *; [|now injection Hrun].
  unfold bind at 1 in Hrun. rewrite onPlugin_setEntry in Hrun.
  now injection Hrun.
Qed.

(** A key as [GenerateKey] creates it (the tag followed by the id as label,
    the spec of the key type, enabled) is read back by [processKMSKey] under
    the same id and with the same key type, provided the id holds no
    instance of the tag. *)
Theorem generated_key_reads_back (k id keySpec : string)
  (t : keymanager.KeyType) w (km : KMS)
  (md : kms.KeyMetadata) (pub : kms.GetPublicKeyOutput) :
  kmsClient (plug w) = Some km ->
  strings.Index id keyPrefix = None ->
  keySpecFromKeyType t = Ok keySpec ->
  fst (DescribeKeyWithContext k (service w)) = Ok md ->
  kms.Description md = keyPrefix +:+ id ->
  kms.CustomerMasterKeySpec md = keySpec ->
  kms.Enabled md = true ->
  fst (GetPublicKeyWithContext k (snd (DescribeKeyWithContext k (service w))))
  = Ok pub ->
  exists w',
    processKMSKey k w = Some (None, w')
    /\ plug w'
       = snd (setEntry id
                {| AwsKeyID := k; CreationDate := kms.CreationDate md;
                   PublicKey :=
                     {| keymanager.Id := id; keymanager.Type_ := t;
                        keymanager.PkixData := kms.GetPublicKeyOutput_PublicKey pub |} |}
                (plug w)).
Proof.
  intros Hkm Hplain Hspec Hd Hlabel Hmd Hen Hg.
  pose proof (processKMSKey_outcome k w km Hkm) as Hrun. cbv zeta in Hrun.
  rewrite Hd, Hg in Hrun.
  assert (Hown : owned md = true).
  { unfold owned. rewrite Hen, Hlabel. apply HasPrefix_app. }
  assert (Hkt : keyTypeFromKeySpec (kms.CustomerMasterKeySpec md) = Ok t).
  { rewrite Hmd. destruct t; simpl in Hspec; try discriminate;
      injection Hspec as <-; reflexivity. }
  assert (Hid : idAfterTag (strings.sliceFrom (kms.Description md)
                                              (String.length keyPrefix)) = id).
  { rewrite Hlabel, sliceFrom_app. now apply idAfterTag_plain. }
  unfold keyError, reconciled in Hrun. rewrite Hkt, Hown, Hid in Hrun.
  eexists. split; [exact Hrun | reflexivity].
Qed.

(** ** The loop over the listing, for any service *)

Lemma reconciled_id (k : string) d g id e :
  reconciled k d g = Some (id, e) -> keymanager.Id (PublicKey e) = id.
Proof.
  unfold reconciled. destruct d as [md |]; [|discriminate].
  destruct g as [pub |]; [|discriminate].
  destruct (keyTypeFromKeySpec _); [|discriminate].
  destruct (owned md); [|discriminate]. now intros [= <- <-].
Qed.

Lemma processKeys_invariants (keys : list string) w (km : KMS) :
  kmsClient (plug w) = Some km ->
  exists w' new,
    processKeys keys w = Some (tt, w')
    /\ calls w' = calls w ++ new
    /\ Forall readsOnly new
    /\ storeGrows (entries (plug w)) (entries (plug w'))
    /\ (consistentIds (entries (plug w)) -> consistentIds (entries (plug w'))).
Proof.
  revert w. induction keys as [|k keys IH]; intros w Hkm.
  - exists w, []. rewrite app_nil_r.
    split5; [reflexivity | reflexivity | constructor | apply storeGrows_refl | auto].
  - pose proof (processKMSKey_outcome k w km Hkm) as Hrun. cbv zeta in Hrun.
    simpl processKeys. unfold bind at 1. rewrite Hrun.
    set (d := fst (DescribeKeyWithContext k (service w))) in *.
    set (g := fst (GetPublicKeyWithContext k _)) in *.
    set (w1 := {| plug := _ |}).
    assert (Hkm1 : kmsClient (plug w1) = Some km)
      by (subst w1; cbn [plug]; now rewrite reconciled_keeps_client).
    assert (Hgrow1 : storeGrows (entries (plug w)) (entries (plug w1))).
    { subst w1; cbn [plug]. destruct (reconciled k d g) as [[id e] |];
        [apply setEntry_grows | apply storeGrows_refl]. }
    assert (Hids1 : consistentIds (entries (plug w)) ->
                    consistentIds (entries (plug w1))).
    { subst w1; cbn [plug]. destruct (reconciled k d g) as [[id e] |] eqn:Hrec;
        [|auto]. apply setEntry_consistent. exact (reconciled_id _ _ _ _ _ Hrec). }
    assert (Hstep : exists w2,
               (_ <- match keyError d g with
                     | Some e =>
                         onPlugin (fun p =>
                           (tt, add_log p {| logMsg := "Failed to process kms key.";
                                             logKeyId := k; logError := e |}))
                     | None => ret tt
                     end ;; processKeys keys) w1 = processKeys keys w2
               /\ kmsClient (plug w2) = Some km
               /\ entries (plug w2) = entries (plug w1)
               /\ calls w2 = calls w1).
    { destruct (keyError d g) as [e |].
      - eexists. split; [reflexivity|]. cbn. auto.
      - exists w1. split; [reflexivity|]. auto. }
    destruct Hstep as (w2 & -> & Hkm2 & Hent2 & Hcalls2).
    destruct (IH w2 Hkm2) as (w' & new & Hrun' & Hcalls' & Hreads & Hgrow & Hids).
    rewrite Hent2 in Hgrow, Hids.
    exists w', (DescribeKey k :: (if fetches d then [FetchPublicKey k] else []) ++ new).
    split5; [exact Hrun' | | | | ].
    + rewrite Hcalls', Hcalls2. subst w1. cbn [calls]. now rewrite <- app_assoc.
    + constructor; [exact I|]. apply Forall_app. split; [|exact Hreads].
      destruct (fetches d); repeat constructor.
    + eapply storeGrows_trans; eassumption.
    + auto.
Qed.

(** ** Configure, case by case *)

(** [Configure] always returns (it cannot panic, whatever state the plugin
    is in), and it only reads the service: every call it makes is a
    listing, a describe or a public-key fetch.  It never creates a key,
    schedules a deletion or signs. *)
Theorem Configure_only_reads (req : ConfigureRequest) w :
  exists r w' new,
    Configure req w = Some (r, w')
    /\ calls w' = calls w ++ new
    /\ Forall readsOnly new.
Proof.
  unfold Configure. destruct (configure (Configuration req)) as [cfg | err].
  2: { exists (Error err), w, []. rewrite app_nil_r. repeat split. constructor. }
  unfold bind at 1, onPlugin at 1. cbn [fst snd].
  destruct (newKMSClient cfg) as [km | err].
  2: { eexists _, _, []. split; [reflexivity|]. cbn [calls]. rewrite app_nil_r.
       split; [reflexivity | constructor]. }
  unfold bind at 1, onPlugin at 1. cbn [plug service calls fst snd].
  unfold bind at 1, invoke at 1. cbn [plug service calls fst snd].
  destruct (ListKeysWithContext (service w)) as [[keys | err] b1].
  2: { eexists _, _, [ListKeys]. split; [reflexivity|].
       split; [reflexivity | repeat constructor]. }
  set (w1 := {| plug := _ |}).
  destruct (processKeys_invariants keys w1 km eq_refl)
    as (w' & new & Hrun & Hcalls & Hreads & _).
  unfold bind at 1. rewrite Hrun.
  exists (Ok ConfigureResponse_empty), w', (ListKeys :: new).
  split; [reflexivity|]. split.
  - rewrite Hcalls. subst w1. cbn [calls]. now rewrite <- app_assoc.
  - constructor; [exact I | exact Hreads].
Qed.

(** [Configure] never drops an id from the store nor replaces an entry by
    one with an earlier creation time, and when every entry sat under the
    id of its public key before, every entry does afterwards. *)
Theorem Configure_keeps_the_store_sound (req : ConfigureRequest) w r w' :
  Configure req w = Some (r, w') ->
  storeGrows (entries (plug w)) (entries (plug w'))
  /\ (consistentIds (entries (plug w)) -> consistentIds (entries (plug w'))).
Proof.
  unfold Configure. destruct (configure (Configuration req)) as [cfg | err].
  2: { intros [= <- <-]. split; [apply storeGrows_refl | auto]. }
  unfold bind at 1, onPlugin at 1. cbn [fst snd].
  destruct (newKMSClient cfg) as [km | err].
  2: { intros [= <- <-]. split; [apply storeGrows_refl | auto]. }
  unfold bind at 1, onPlugin at 1. cbn [plug service calls fst snd].
  unfold bind at 1, invoke at 1. cbn [plug service calls fst snd].
  destruct (ListKeysWithContext (service w)) as [[keys | err] b1].
  2: { intros [= <- <-]. split; [apply storeGrows_refl | auto]. }
  set (w1 := {| plug := _ |}).
  destruct (processKeys_invariants keys w1 km eq_refl)
    as (w2 & new & Hrun & _ & _ & Hgrow & Hids).
  unfold bind at 1. rewrite Hrun. intros [= <- <-]. auto.
Qed.

(** The same for [GenerateKey]. *)
Theorem GenerateKey_keeps_the_store_sound
  (req : keymanager.GenerateKeyRequest) w r w' :
  GenerateKey req w = Some (r, w') ->
  storeGrows (entries (plug w)) (entries (plug w'))
  /\ (consistentIds (entries (plug w)) -> consistentIds (entries (plug w'))).
Proof.
  intros Hrun.
  generate_cases Hrun;
    try (subst; split; [apply storeGrows_refl | auto]; fail);
    injection Hrun as <- <-; cbn [plug];
    try (split; [apply storeGrows_refl | auto]; fail);
    (split; [apply setEntry_grows | now apply setEntry_consistent]).
Qed.

(** A configuration that does not decode: [Configure] answers the kms error
    that wraps the decoder's message and leaves the world as it was. *)
Theorem Configure_decode_failure (req : ConfigureRequest) w (err : error) :
  hcl_Decode (Configuration req) = Error err ->
  Configure req w
  = Some (Error (kmsErr_New ("unable to decode configuration: "
                             +:+ Error_string err)), w).
Proof.
  intros H. unfold Configure. now rewrite (configure_decode_error _ _ H).
Qed.

(** A session that cannot be opened: [Configure] answers that error; the
    decoded configuration is already stored, the client, the store and the
    service are untouched and no call was made. *)
Theorem Configure_session_failure (req : ConfigureRequest) w
  (cfg : Config) (err : error) :
  hcl_Decode (Configuration req) = Ok cfg ->
  session_NewSession
    {| Credentials := (AccessKeyID cfg, SecretAccessKey cfg, "");
       awsConfig_Region := Region cfg |} = Error err ->
  exists w',
    Configure req w = Some (Error err, w')
    /\ config (plug w') = Some cfg
    /\ kmsClient (plug w') = kmsClient (plug w)
    /\ entries (plug w') = entries (plug w)
    /\ service w' = service w
    /\ calls w' = calls w.
Proof.
  intros Hcfg Hsess. unfold Configure.
  rewrite (configure_no_validation _ _ Hcfg).
  unfold bind at 1, onPlugin at 1. cbn [fst snd].
  unfold newKMSClient. rewrite Hsess.
  eexists. split; [reflexivity|]. cbn. auto 6.
Qed.

(** Once the configuration decodes and the session opens, [Configure]
    stores that configuration and a client built from a session with the
    configuration's key id, secret and region and an empty token; its first
    call is the listing, and this holds whether or not the listing
    succeeds. *)
Theorem Configure_installs_the_client (req : ConfigureRequest) w
  (cfg : Config) (s : Session) :
  hcl_Decode (Configuration req) = Ok cfg ->
  session_NewSession
    {| Credentials := (AccessKeyID cfg, SecretAccessKey cfg, "");
       awsConfig_Region := Region cfg |} = Ok s ->
  exists r w' new,
    Configure req w = Some (r, w')
    /\ config (plug w') = Some cfg
    /\ kmsClient (plug w') = Some {| session := sessionConfig s |}
    /\ calls w' = calls w ++ ListKeys :: new.
Proof.
  intros Hcfg Hsess.
  assert (Hkm : newKMSClient cfg = Ok {| session := sessionConfig s |})
    by (unfold newKMSClient; now rewrite Hsess).
  unfold Configure. rewrite (configure_no_validation _ _ Hcfg).
  unfold bind at 1, onPlugin at 1. cbn [fst snd]. rewrite Hkm.
  unfold bind at 1, onPlugin at 1. cbn [plug service calls fst snd].
  unfold bind at 1, invoke at 1. cbn [plug service calls fst snd].
  destruct (ListKeysWithContext (service w)) as [[keys | err] b1].
  2: { eexists _, _, []. split; [reflexivity|]. cbn. auto. }
  set (w1 := {| plug := _ |}).
  destruct (processKeys_runs keys w1 _ eq_refl)
    as (w' & new & Hrun & Hkm' & Hcfg' & Hcalls & _).
  unfold bind at 1. rewrite Hrun.
  exists (Ok ConfigureResponse_empty), w', new.
  split; [reflexivity|]. split; [exact Hcfg'|]. split; [exact Hkm'|].
  rewrite Hcalls. subst w1. cbn [calls]. now rewrite <- app_assoc.
Qed.

(** ** The loop over the listing, for a stable key set *)

Section MoreStableService.

Variable Inv : B -> Prop.
Variable descr : string -> result kms.KeyMetadata.
Variable pubk : string -> result kms.GetPublicKeyOutput.

Hypothesis describe_stable : forall k b, Inv b ->
  fst (DescribeKeyWithContext k b) = descr k
  /\ Inv (snd (DescribeKeyWithContext k b)).

Hypothesis fetch_stable : forall k b, Inv b ->
  fst (GetPublicKeyWithContext k b) = pubk k
  /\ Inv (snd (GetPublicKeyWithContext k b)).

Lemma processKeys_stable (keys : list string) w (km : KMS) :
  Inv (service w) ->
  kmsClient (plug w) = Some km ->
  exists w',
    processKeys keys w = Some (tt, w')
    /\ Inv (service w')
    /\ kmsClient (plug w') = Some km
    /\ log (plug w')
       = log (plug w)
         ++ omap (fun k => failureLine k <$> keyError (descr k) (pubk k)) keys
    /\ entries (plug w')
       = foldl storeAfterPut (entries (plug w)) (omap (putOf descr pubk) keys).
Proof.
  revert w. induction keys as [|k keys IH]; intros w Hinv Hkm.
  - exists w. rewrite app_nil_r. auto 6.
  - pose proof (processKMSKey_outcome k w km Hkm) as Hrun. cbv zeta in Hrun.
    destruct (describe_stable k _ Hinv) as [Hd Hinv1].
    destruct (fetch_stable k _ Hinv1) as [Hg Hinv2].
    rewrite Hd, Hg in Hrun. fold (putOf descr pubk k) in Hrun.
    simpl processKeys. unfold bind at 1. rewrite Hrun.
    set (w1 := {| plug := _ |}).
    assert (Hinv' : Inv (service w1))
      by (subst w1; cbn [service]; destruct (fetches (descr k)); assumption).
    assert (Hkm1 : kmsClient (plug w1) = Some km).
    { subst w1; cbn [plug]. unfold putOf. now rewrite reconciled_keeps_client. }
    assert (Hlog1 : log (plug w1) = log (plug w)).
    { subst w1; cbn [plug]. destruct (putOf descr pubk k) as [[id e] |];
        [exact (proj1 (setEntry_frame _ _ _)) | reflexivity]. }
    assert (Hent1 : entries (plug w1)
                    = foldl storeAfterPut (entries (plug w))
                        (omap (putOf descr pubk) [k])).
    { subst w1; cbn [plug].
      change (omap (putOf descr pubk) [k])
        with (match putOf descr pubk k with Some y => [y] | None => [] end).
      destruct (putOf descr pubk k) as [[id e] |]; simpl;
        [apply entries_setEntry | reflexivity]. }
    assert (Hstep : exists w2,
               (_ <- match keyError (descr k) (pubk k) with
                     | Some e =>
                         onPlugin (fun p =>
                           (tt, add_log p {| logMsg := "Failed to process kms key.";
                                             logKeyId := k; logError := e |}))
                     | None => ret tt
                     end ;; processKeys keys) w1 = processKeys keys w2
               /\ kmsClient (plug w2) = Some km
               /\ entries (plug w2) = entries (plug w1)
               /\ service w2 = service w1
               /\ log (plug w2)
                  = log (plug w1)
                    ++ omap (fun k => failureLine k <$> keyError (descr k) (pubk k)) [k]).
    { destruct (keyError (descr k) (pubk k)) as [e |] eqn:Herr.
      - eexists. split; [reflexivity|]. cbn. rewrite Herr. auto.
      - exists w1. split; [reflexivity|]. cbn. rewrite Herr, app_nil_r. auto. }
    destruct Hstep as (w2 & -> & Hkm2 & Hent2 & Hsvc2 & Hlog2).
    rewrite <- Hsvc2 in Hinv'.
    destruct (IH w2 Hinv' Hkm2) as (w' & Hrun' & Hinv'' & Hkm' & Hlog' & Hent').
    exists w'. split5; [exact Hrun' | exact Hinv'' | exact Hkm' | |].
    + rewrite Hlog', Hlog2, Hlog1. change (k :: keys) with ([k] ++ keys).
      now rewrite omap_app, app_assoc.
    + rewrite Hent', Hent2, Hent1. change (k :: keys) with ([k] ++ keys).
      now rewrite omap_app, foldl_app.
Qed.

(** Over a key set that stays as it is, the loop over the listing logs one
    line for each key whose processing returns an error, in listing order,
    with that error: a failed describe, an unsupported spec (checked before
    the tag, so also for keys that are not the plugin's), or a failed fetch
    of an owned key.  Disabled and untagged keys with a supported spec leave
    no line. *)
Theorem reconciliation_log (keys : list string) w (km : KMS) :
  Inv (service w) ->
  kmsClient (plug w) = Some km ->
  exists w',
    processKeys keys w = Some (tt, w')
    /\ log (plug w')
       = log (plug w)
         ++ omap (fun k => failureLine k <$> keyError (descr k) (pubk k)) keys
    /\ (forall k md, descr k = Ok md -> supportedSpec md = true ->
        owned md = false -> keyError (descr k) (pubk k) = None)
    /\ (forall k md, descr k = Ok md -> supportedSpec md = false ->
        keyError (descr k) (pubk k) <> None).
Proof.
  intros Hinv Hkm.
  destruct (processKeys_stable keys w km Hinv Hkm) as (w' & Hrun & _ & _ & Hlog & _).
  exists w'. split; [exact Hrun|]. split; [exact Hlog|]. split.
  - intros k md -> Hsup Hown. unfold keyError, supportedSpec in *.
    destruct (keyTypeFromKeySpec _); [now rewrite Hown | discriminate].
  - intros k md -> Hsup. unfold keyError, supportedSpec in *.
    destruct (keyTypeFromKeySpec _); [discriminate | discriminate].
Qed.

(** Over a key set that stays as it is, running the loop over the same
    listing a second time leaves the store as the first run left it. *)
Theorem reconciliation_idempotent (keys : list string) w (km : KMS) :
  Inv (service w) ->
  kmsClient (plug w) = Some km ->
  exists w1 w2,
    processKeys keys w = Some (tt, w1)
    /\ processKeys keys w1 = Some (tt, w2)
    /\ entries (plug w2) = entries (plug w1).
Proof.
  intros Hinv Hkm.
  destruct (processKeys_stable keys w km Hinv Hkm)
    as (w1 & Hrun1 & Hinv1 & Hkm1 & _ & Hent1).
  destruct (processKeys_stable keys w1 km Hinv1 Hkm1)
    as (w2 & Hrun2 & _ & _ & _ & Hent2).
  exists w1, w2. split; [exact Hrun1 | split; [exact Hrun2|]].
  rewrite Hent2, Hent1. apply foldl_storeAfterPut_idem.
Qed.

End MoreStableService.

End MoreServiceFacts.

Transparent keyPrefix.

(** * The further properties, on the fake service *)

Lemma GenerateKey_answer_witness :
  exists newEntry cur,
    newEntryOf scenario.rotate scenario.mixed = Some newEntry
    /\ keymanager.Id (PublicKey newEntry) = "svid-1"
    /\ (cur = newEntry
        \/ (entries (plug scenario.beforeRotation) !! "svid-1" = Some cur
            /\ time.Unix (CreationDate newEntry) < time.Unix (CreationDate cur))).
Proof.
  destruct (GenerateKey scenario.rotate scenario.beforeRotation)
    as [[[resp | err] w'] |] eqn:Hrun;
    try (vm_compute in Hrun; discriminate).
  destruct (GenerateKey_answer _ _ _ _ Hrun)
    as (newEntry & cur & Hnew & _ & Hid & _ & _ & Hcur).
  exists newEntry, cur. auto.
Defined.


Lemma GenerateKey_frame_witness :
  exists r w',
    GenerateKey scenario.rotate scenario.beforeRotation = Some (r, w')
    /\ entries (plug w') !! "svid-2" = None
    /\ log (plug w') = [].
Proof.
  destruct (GenerateKey scenario.rotate scenario.beforeRotation)
    as [[r w'] |] eqn:Hrun; [|vm_compute in Hrun; discriminate].
  destruct (GenerateKey_frame _ _ _ _ Hrun) as (Hother & Hlog & _).
  exists r, w'. split; [reflexivity|]. split.
  - rewrite Hother by discriminate. reflexivity.
  - rewrite Hlog. reflexivity.
Defined.

Lemma GenerateKey_creates_one_key_witness :
  exists r w' new,
    GenerateKey scenario.rotate scenario.beforeRotation = Some (r, w')
    /\ calls w' = new
    /\ omap createInput new
       = [{| kms.CreateKeyInput_Description := "SPIRE_SERVER_KEY:svid-1";
             kms.CreateKeyInput_KeyUsage := "SIGN_VERIFY";
             kms.CreateKeyInput_CustomerMasterKeySpec := "ECC_NIST_P256" |}].
Proof.
  destruct (GenerateKey_creates_one_key (client := fake.client)
              scenario.rotate scenario.beforeRotation scenario.client0
              "ECC_NIST_P256" eq_refl eq_refl)
    as (r & w' & new & Hrun & Hcalls & Hcreate & _).
  exists r, w', new. split; [exact Hrun|]. split; [exact Hcalls | exact Hcreate].
Defined.

Lemma generated_key_reads_back_witness :
  exists w',
    processKMSKey "key-1" (fake.world scenario.configured scenario.mixed)
    = Some (None, w')
    /\ entries (plug w') = {[ "svid-1" := sample.entry1 ]}.
Proof.
  destruct (generated_key_reads_back (client := fake.client)
              "key-1" "svid-1" "ECC_NIST_P256" keymanager.KeyType_EC_P256
              (fake.world scenario.configured scenario.mixed) scenario.client0
              (fake.metadata
                 (scenario.keyOf "key-1" "ECC_NIST_P256" "SPIRE_SERVER_KEY:svid-1"
                                 true (Ok sample.pkix1)))
              {| kms.GetPublicKeyOutput_KeyId := "key-1";
                 kms.GetPublicKeyOutput_PublicKey := sample.pkix1 |}
              eq_refl eq_refl eq_refl eq_refl eq_refl eq_refl eq_refl eq_refl)
    as (w' & Hrun & Hplug).
  exists w'. split; [exact Hrun|]. rewrite Hplug. reflexivity.
Defined.

Lemma Configure_keeps_the_store_sound_witness :
  exists r w',
    Configure {| Configuration := fake.fullConfigText |} scenario.beforeRotation
    = Some (r, w')
    /\ storeGrows (entries (plug scenario.beforeRotation)) (entries (plug w')).
Proof.
  destruct (Configure {| Configuration := fake.fullConfigText |}
              scenario.beforeRotation) as [[r w'] |] eqn:Hrun;
    [|vm_compute in Hrun; discriminate].
  exists r, w'. split; [reflexivity|].
  exact (proj1 (Configure_keeps_the_store_sound _ _ _ _ Hrun)).
Defined.

Lemma GenerateKey_keeps_the_store_sound_witness :
  exists r w',
    GenerateKey scenario.rotate scenario.beforeRotation = Some (r, w')
    /\ storeGrows (entries (plug scenario.beforeRotation)) (entries (plug w')).
Proof.
  destruct (GenerateKey scenario.rotate scenario.beforeRotation)
    as [[r w'] |] eqn:Hrun; [|vm_compute in Hrun; discriminate].
  exists r, w'. split; [reflexivity|].
  exact (proj1 (GenerateKey_keeps_the_store_sound _ _ _ _ Hrun)).
Defined.

Lemma Configure_decode_failure_witness :
  Configure {| Configuration := "region us-east-1" |} scenario.beforeRotation
  = Some (Error (kmsErr_New "unable to decode configuration: hcl: syntax error"),
          scenario.beforeRotation).
Proof.
  apply (Configure_decode_failure (host := fake.host)
           {| Configuration := "region us-east-1" |} scenario.beforeRotation
           (foreign_error "hcl: syntax error")).
  reflexivity.
Defined.

Lemma Configure_session_failure_witness :
  exists w',
    Configure (host := fake.offlineHost)
      {| Configuration := fake.fullConfigText |} (fake.world New scenario.mixed)
    = Some (Error (foreign_error "NoCredentialProviders"), w')
    /\ config (plug w') = Some scenario.fullConfig
    /\ kmsClient (plug w') = None
    /\ calls w' = [].
Proof.
  assert (Hcfg : hcl_Decode (Host := fake.offlineHost) fake.fullConfigText
                 = Ok scenario.fullConfig) by (vm_compute; reflexivity).
  destruct (Configure_session_failure (client := fake.client)
              (host := fake.offlineHost)
              {| Configuration := fake.fullConfigText |}
              (fake.world New scenario.mixed) scenario.fullConfig
              (foreign_error "NoCredentialProviders") Hcfg eq_refl)
    as (w' & Hrun & Hconfig & Hclient & _ & _ & Hcalls).
  exists w'. auto.
Defined.

Lemma Configure_installs_the_client_witness :
  exists r w' new,
    Configure {| Configuration := fake.fullConfigText |}
              (fake.world New scenario.mixed) = Some (r, w')
    /\ config (plug w') = Some scenario.fullConfig
    /\ kmsClient (plug w') = Some scenario.fullClient
    /\ calls w' = ListKeys :: new.
Proof.
  assert (Hcfg : hcl_Decode (Host := fake.host) fake.fullConfigText
                 = Ok scenario.fullConfig) by (vm_compute; reflexivity).
  destruct (Configure_installs_the_client (client := fake.client)
              (host := fake.host)
              {| Configuration := fake.fullConfigText |}
              (fake.world New scenario.mixed) scenario.fullConfig
              {| sessionConfig :=
                   {| Credentials := ("AKIAEXAMPLE", "s3cr3t", "");
                      awsConfig_Region := "us-east-1" |} |} Hcfg eq_refl)
    as (r & w' & new & Hrun & Hconfig & Hclient & Hcalls).
  exists r, w', new. auto.
Defined.

Lemma reconciliation_log_witness :
  exists w',
    processKeys ["ghost"; "key-sym"; "key-broken"; "key-off"; "key-other"; "key-1"]
      (fake.world scenario.configured scenario.mixed) = Some (tt, w')
    /\ log (plug w')
       = [failureLine "ghost" (foreign_error "NotFoundException");
          failureLine "key-sym" (kmsErr_New "unsupported");
          failureLine "key-broken" (foreign_error "KMSInternalException")].
Proof.
  assert (Hdescribe : forall k b, b = scenario.mixed ->
            fst (fake.describeKey k b) = fst (fake.describeKey k scenario.mixed)
            /\ snd (fake.describeKey k b) = scenario.mixed)
    by (intros k b ->; split; reflexivity).
  assert (Hfetch : forall k b, b = scenario.mixed ->
            fst (fake.getPublicKey k b) = fst (fake.getPublicKey k scenario.mixed)
            /\ snd (fake.getPublicKey k b) = scenario.mixed)
    by (intros k b ->; split; reflexivity).
  destruct (reconciliation_log (client := fake.client)
              (fun b => b = scenario.mixed)
              (fun k => fst (fake.describeKey k scenario.mixed))
              (fun k => fst (fake.getPublicKey k scenario.mixed))
              Hdescribe Hfetch
              ["ghost"; "key-sym"; "key-broken"; "key-off"; "key-other"; "key-1"]
              (fake.world scenario.configured scenario.mixed)
              scenario.client0 eq_refl eq_refl)
    as (w' & Hrun & Hlog & _).
  exists w'. split; [exact Hrun|]. rewrite Hlog. vm_compute. reflexivity.
Defined.

Lemma reconciliation_idempotent_witness :
  exists w1 w2,
    processKeys ["key-1"; "key-broken"]
      (fake.world scenario.configured scenario.mixed) = Some (tt, w1)
    /\ processKeys ["key-1"; "key-broken"] w1 = Some (tt, w2)
    /\ entries (plug w2) = entries (plug w1).
Proof.
  assert (Hdescribe : forall k b, b = scenario.mixed ->
            fst (fake.describeKey k b) = fst (fake.describeKey k scenario.mixed)
            /\ snd (fake.describeKey k b) = scenario.mixed)
    by (intros k b ->; split; reflexivity).
  assert (Hfetch : forall k b, b = scenario.mixed ->
            fst (fake.getPublicKey k b) = fst (fake.getPublicKey k scenario.mixed)
            /\ snd (fake.getPublicKey k b) = scenario.mixed)
    by (intros k b ->; split; reflexivity).
  exact (reconciliation_idempotent (client := fake.client)
           (fun b => b = scenario.mixed)
           (fun k => fst (fake.describeKey k scenario.mixed))
           (fun k => fst (fake.getPublicKey k scenario.mixed))
           Hdescribe Hfetch ["key-1"; "key-broken"]
           (fake.world scenario.configured scenario.mixed)
           scenario.client0 eq_refl eq_refl).
Defined.
